(** * ExpansionHunter: region_analysis/RepeatAnalyzer.cpp

    A shallow embedding of the repeat analyzer of ExpansionHunter and the
    verification of its specification.  The analyzer receives pairs of
    graph alignments of mates, screens and classifies each alignment,
    accumulates the evidence in three count tables and, on request, turns
    the accumulated evidence into findings (collapsed tables, an optional
    genotype and a filter mask).

    Conventions of the embedding.
    - [int32_t] and [int] values are integers of [Z]; the overflow of a
      signed counter is undefined in the source and is not modelled.
    - [double] values that are only compared, halved and handed on are
      binary64 floats ([PrimFloat.float]).
    - the mutable members of the analyzer and the log sink are threaded
      through the methods by a state monad ([Method]).
    - functions and classes that the translation unit only includes are
      gathered in the class [Collaborators]. *)

From Stdlib Require Import ZArith QArith Qround.
From Stdlib Require Import Floats.PrimFloat.
From stdpp Require Import gmap strings list fin_maps sorting.

Local Open Scope Z_scope.

(** ** CountTable *)

(** Modelled from the spec: the class [CountTable], which the translation
    unit uses and does not define.  A sparse mapping from a number of
    repeat units to an occurrence count. *)
Abbreviation CountTable := (gmap Z Z).

(** Modelled from the spec: the count of a bucket; an absent bucket counts
    zero. *)
Definition countOf (element : Z) (table : CountTable) : Z :=
  default 0 (table !! element).

(** Modelled from the spec: [CountTable::incrementCountOf], one more
    observation of [element]. *)
Definition incrementCountOf (element : Z) (table : CountTable) : CountTable :=
  <[element := countOf element table + 1]> table.

(** Modelled from the spec: [CountTable::getElementsWithNonzeroCounts], the
    keys with a non-zero count, in the ascending order of the table. *)
Definition getElementsWithNonzeroCounts (table : CountTable) : list Z :=
  merge_sort Z.le (map_to_list (filter (λ kv, kv.2 ≠ 0) table)).*1.

(** Modelled from the spec: one step of [collapseTopElements].  The count of
    a bucket is added to the bucket of the copy at the same element, or at
    [upperBound] when the element lies above it. *)
Definition collapseBucket (upperBound element count : Z) (collapsed : CountTable)
  : CountTable :=
  let target := Z.min element upperBound in
  <[target := countOf target collapsed + count]> collapsed.

(** Modelled from the spec: [collapseTopElements], a copy of the table in
    which every bucket above [upperBound] is merged into the bucket at
    [upperBound].  The copy is built bucket by bucket. *)
Definition collapseTopElements (table : CountTable) (upperBound : Z) : CountTable :=
  map_fold (collapseBucket upperBound) ∅ table.

(** The number of observations recorded in buckets strictly above a bound. *)
Definition countAbove (upperBound : Z) (table : CountTable) : Z :=
  map_fold (λ element count total,
              if upperBound <? element then total + count else total) 0 table.

(** ** Candidate allele sizes *)

(** [*std::max_element(first, last)] on the non-empty range
    [largest :: rest]: the scan keeps the first largest element. *)
Fixpoint max_element (largest : Z) (rest : list Z) : Z :=
  match rest with
  | [] => largest
  | size :: rest' => max_element (if largest <? size then size else largest) rest'
  end.

(** [std::max(a, b)] is [(a < b) ? b : a]. *)
Definition std_max (a b : Z) : Z := if a <? b then b else a.

(** [sizes.empty() ? 0 : *std::max_element(sizes.begin(), sizes.end())] *)
Definition longestOf (sizes : list Z) : Z :=
  match sizes with
  | [] => 0
  | first :: rest => max_element first rest
  end.

Definition generateCandidateAlleleSizes
    (spanningTable flankingTable inrepeatTable : CountTable) : list Z :=
  let candidateSizes := getElementsWithNonzeroCounts spanningTable in
  let longestSpanning := longestOf candidateSizes in
  let flankingSizes := getElementsWithNonzeroCounts flankingTable in
  let longestFlanking := longestOf flankingSizes in
  let inrepeatSizes := getElementsWithNonzeroCounts inrepeatTable in
  let longestInrepeat := longestOf inrepeatSizes in
  let longestNonSpanning := std_max longestFlanking longestInrepeat in
  if longestSpanning <? longestNonSpanning
  then candidateSizes ++ [longestNonSpanning]
  else candidateSizes.

(** A size is supported by a table when its bucket is not zero. *)
Definition supported (table : CountTable) (size : Z) : Prop :=
  countOf size table ≠ 0.

(** [longest] is the longest supported size of the table, and 0 when the
    table supports no size. *)
Definition is_longest (table : CountTable) (longest : Z) : Prop :=
  ((∀ size, ¬ supported table size) ∧ longest = 0)
  ∨ (supported table longest ∧ ∀ size, supported table size → size ≤ longest).

(** ** Types of the surrounding code *)

(** [graphtools::NodeId] is an unsigned 32-bit index of a graph node. *)
Definition NodeId : Type := N.

(** Modelled from the spec: the enumeration [AlignmentType].  The source
    names the three enumerators below; every other value of the enumeration
    (the [default] branch of the source) is [kOtherAlignment]. *)
Inductive AlignmentType :=
  | kSpansRepeat
  | kFlanksRepeat
  | kInsideRepeat
  | kOtherAlignment.

#[global] Instance AlignmentType_eq_dec : EqDecision AlignmentType.
Proof. solve_decision. Defined.

(** Modelled from the spec: the allele count of a locus is haploid or
    diploid; the source names [AlleleCount::kTwo] only. *)
Inductive AlleleCount :=
  | kOne
  | kTwo.

#[global] Instance AlleleCount_eq_dec : EqDecision AlleleCount.
Proof. solve_decision. Defined.

Record Read := {
  readId : string;
  sequence : string
}.

Record LocusStats := {
  alleleCount : AlleleCount;
  meanReadLength : Z;
  depth : float
}.

Record GenotyperParameters := {
  minLocusCoverage : float;
  minBreakpointSpanningReads : Z
}.

(** [GenotypeFilter] is a mask of flags joined with [|]; the default
    constructed mask has no flag. *)
Definition GenotypeFilter : Type := Z.

Definition GenotypeFilter_none : GenotypeFilter := 0.

Definition hasFlag (filter flag : GenotypeFilter) : Prop :=
  Z.land filter flag = flag.

(** Modelled from the spec: the breakpoint statistics accumulator
    ([alignmentStatsCalculator_]) counts the inspected alignments that
    cross the left and the right breakpoint of the repeat. *)
Record GraphVariantAlignmentStats := {
  numReadsSpanningLeftBreakpoint : Z;
  numReadsSpanningRightBreakpoint : Z
}.

(** The arguments of the constructor of [RepeatGenotyper], in the order of
    the call in [analyze]. *)
Record RepeatGenotyper := {
  genotyper_haplotypeDepth : float;
  genotyper_alleleCount : AlleleCount;
  genotyper_repeatUnitLength : Z;
  genotyper_maxNumUnitsInRead : Z;
  genotyper_propCorrectMolecules : float;
  genotyper_spanningTable : CountTable;
  genotyper_flankingTable : CountTable;
  genotyper_inrepeatTable : CountTable;
  genotyper_countOfInrepeatReadPairs : Z
}.

(** Records written to [console_]. *)
Inductive LogLevel :=
  | trace
  | debug.

Inductive LogArgument :=
  | ArgString (text : string)
  | ArgAlignmentType (type : AlignmentType)
  | ArgNodeId (node : NodeId).

Record LogRecord := {
  level : LogLevel;
  format : string;
  arguments : list LogArgument
}.

(** The members of [RepeatAnalyzer] that this translation unit reads or
    writes. *)
Record RepeatAnalyzer := {
  variantId_ : string;
  repeatNodeId : NodeId;
  repeatUnit_ : string;
  genotyperParams_ : GenotyperParameters;
  alignmentStatsCalculator_ : GraphVariantAlignmentStats;
  countsOfSpanningReads_ : CountTable;
  countsOfFlankingReads_ : CountTable;
  countsOfInrepeatReads_ : CountTable;
  countOfInrepeatReadPairs_ : Z
}.

Definition with_alignmentStatsCalculator
    (update : GraphVariantAlignmentStats → GraphVariantAlignmentStats)
    (this : RepeatAnalyzer) : RepeatAnalyzer :=
  {| variantId_ := variantId_ this;
     repeatNodeId := repeatNodeId this;
     repeatUnit_ := repeatUnit_ this;
     genotyperParams_ := genotyperParams_ this;
     alignmentStatsCalculator_ := update (alignmentStatsCalculator_ this);
     countsOfSpanningReads_ := countsOfSpanningReads_ this;
     countsOfFlankingReads_ := countsOfFlankingReads_ this;
     countsOfInrepeatReads_ := countsOfInrepeatReads_ this;
     countOfInrepeatReadPairs_ := countOfInrepeatReadPairs_ this |}.

Definition with_countsOfSpanningReads (update : CountTable → CountTable)
    (this : RepeatAnalyzer) : RepeatAnalyzer :=
  {| variantId_ := variantId_ this;
     repeatNodeId := repeatNodeId this;
     repeatUnit_ := repeatUnit_ this;
     genotyperParams_ := genotyperParams_ this;
     alignmentStatsCalculator_ := alignmentStatsCalculator_ this;
     countsOfSpanningReads_ := update (countsOfSpanningReads_ this);
     countsOfFlankingReads_ := countsOfFlankingReads_ this;
     countsOfInrepeatReads_ := countsOfInrepeatReads_ this;
     countOfInrepeatReadPairs_ := countOfInrepeatReadPairs_ this |}.

Definition with_countsOfFlankingReads (update : CountTable → CountTable)
    (this : RepeatAnalyzer) : RepeatAnalyzer :=
  {| variantId_ := variantId_ this;
     repeatNodeId := repeatNodeId this;
     repeatUnit_ := repeatUnit_ this;
     genotyperParams_ := genotyperParams_ this;
     alignmentStatsCalculator_ := alignmentStatsCalculator_ this;
     countsOfSpanningReads_ := countsOfSpanningReads_ this;
     countsOfFlankingReads_ := update (countsOfFlankingReads_ this);
     countsOfInrepeatReads_ := countsOfInrepeatReads_ this;
     countOfInrepeatReadPairs_ := countOfInrepeatReadPairs_ this |}.

Definition with_countsOfInrepeatReads (update : CountTable → CountTable)
    (this : RepeatAnalyzer) : RepeatAnalyzer :=
  {| variantId_ := variantId_ this;
     repeatNodeId := repeatNodeId this;
     repeatUnit_ := repeatUnit_ this;
     genotyperParams_ := genotyperParams_ this;
     alignmentStatsCalculator_ := alignmentStatsCalculator_ this;
     countsOfSpanningReads_ := countsOfSpanningReads_ this;
     countsOfFlankingReads_ := countsOfFlankingReads_ this;
     countsOfInrepeatReads_ := update (countsOfInrepeatReads_ this);
     countOfInrepeatReadPairs_ := countOfInrepeatReadPairs_ this |}.

Definition with_countOfInrepeatReadPairs (update : Z → Z)
    (this : RepeatAnalyzer) : RepeatAnalyzer :=
  {| variantId_ := variantId_ this;
     repeatNodeId := repeatNodeId this;
     repeatUnit_ := repeatUnit_ this;
     genotyperParams_ := genotyperParams_ this;
     alignmentStatsCalculator_ := alignmentStatsCalculator_ this;
     countsOfSpanningReads_ := countsOfSpanningReads_ this;
     countsOfFlankingReads_ := countsOfFlankingReads_ this;
     countsOfInrepeatReads_ := countsOfInrepeatReads_ this;
     countOfInrepeatReadPairs_ := update (countOfInrepeatReadPairs_ this) |}.

(** ** The monad of methods

    A method runs on the analyzer object and on the log sink the object
    points to; a [const] method is written with [getThis] only. *)
Record Machine := {
  analyzer : RepeatAnalyzer;
  console : list LogRecord
}.

Definition Method (A : Type) : Type := Machine → A * Machine.

#[global] Instance Method_ret : MRet Method := λ A x machine, (x, machine).

#[global] Instance Method_bind : MBind Method :=
  λ A B next method machine,
    let (x, machine') := method machine in next x machine'.

Definition getThis : Method RepeatAnalyzer :=
  λ machine, (analyzer machine, machine).

Definition modifyThis (update : RepeatAnalyzer → RepeatAnalyzer) : Method unit :=
  λ machine,
    (tt, {| analyzer := update (analyzer machine); console := console machine |}).

Definition logTo (lvl : LogLevel) (fmt : string) (args : list LogArgument)
  : Method unit :=
  λ machine,
    (tt, {| analyzer := analyzer machine;
            console := console machine
                       ++ [{| level := lvl; format := fmt; arguments := args |}] |}).

Definition execute {A} (method : Method A) (machine : Machine) : Machine :=
  (method machine).2.

Definition result {A} (method : Method A) (machine : Machine) : A :=
  (method machine).1.

(** ** The three alignment predicates and the order of their evaluation

    The three predicates on alignments are pure.  The filter returns, next
    to its answer, the predicates it evaluated, in order, so that the early
    returns of the source stay visible. *)
Inductive AlignmentCheck :=
  | PassesAlignmentFilters
  | UpstreamAlignmentIsGood
  | DownstreamAlignmentIsGood.

Definition Evaluated (A : Type) : Type := A * list AlignmentCheck.

#[global] Instance Evaluated_ret : MRet Evaluated := λ A x, (x, []).

#[global] Instance Evaluated_bind : MBind Evaluated :=
  λ A B next evaluated,
    let (x, checks) := evaluated in
    let (y, checks') := next x in (y, checks ++ checks').

Definition evaluate (check : AlignmentCheck) (answer : bool) : Evaluated bool :=
  (answer, [check]).

(** ** Collaborators

    What the translation unit takes from its includes: the three alignment
    predicates, the classifier ([alignmentClassifier_.Classify]),
    [countFullOverlaps], [prettyPrint], the genotyper
    ([RepeatGenotyper::genotypeRepeat]), the two breakpoint tests of the
    statistics accumulator and the value of the enumerator
    [GenotypeFilter::kLowDepth]. *)
Class Collaborators := {
  GraphAlignment : Type;
  RepeatGenotype : Type;
  checkIfPassesAlignmentFilters : GraphAlignment → bool;
  checkIfUpstreamAlignmentIsGood : NodeId → GraphAlignment → bool;
  checkIfDownstreamAlignmentIsGood : NodeId → GraphAlignment → bool;
  Classify : GraphAlignment → AlignmentType;
  countFullOverlaps : NodeId → GraphAlignment → Z;
  prettyPrint : GraphAlignment → string → string;
  spansLeftBreakpoint : GraphAlignment → bool;
  spansRightBreakpoint : GraphAlignment → bool;
  genotypeRepeat : RepeatGenotyper → list Z → option RepeatGenotype;
  kLowDepth : GenotypeFilter
}.

Section Analyzer.
Context `{Collaborators}.

Set Warnings "-inexact-float".

(** Modelled from the spec: [RepeatAlignmentStats] packages an alignment
    with its type and its number of repeat units; the accessors return what
    the constructor was given. *)
Record RepeatAlignmentStats := {
  canonicalAlignment : GraphAlignment;
  canonicalAlignmentType : AlignmentType;
  numRepeatUnitsSpanned : Z
}.

(** The arguments of the constructor of [RepeatFindings], in the order of
    the call in [analyze]. *)
Record RepeatFindings := {
  findings_spanningTable : CountTable;
  findings_flankingTable : CountTable;
  findings_inrepeatTable : CountTable;
  findings_alleleCount : AlleleCount;
  findings_repeatGenotype : option RepeatGenotype;
  findings_genotypeFilter : GenotypeFilter
}.

(** The four arguments of one call of [processMates]. *)
Record MatePair := {
  pair_read : Read;
  pair_readAlignment : GraphAlignment;
  pair_mate : Read;
  pair_mateAlignment : GraphAlignment
}.

(** Modelled from the spec: [alignmentStatsCalculator_.inspect] is fed one
    alignment and counts it for each breakpoint it crosses. *)
Definition inspect (alignment : GraphAlignment)
    (calculator : GraphVariantAlignmentStats) : GraphVariantAlignmentStats :=
  {| numReadsSpanningLeftBreakpoint :=
       numReadsSpanningLeftBreakpoint calculator
       + (if spansLeftBreakpoint alignment then 1 else 0);
     numReadsSpanningRightBreakpoint :=
       numReadsSpanningRightBreakpoint calculator
       + (if spansRightBreakpoint alignment then 1 else 0) |}.

(** Modelled from the spec: [alignmentStatsCalculator_.getStats] reports
    the two counts. *)
Definition getStats (calculator : GraphVariantAlignmentStats)
  : GraphVariantAlignmentStats := calculator.

Definition checkIfAlignmentIsConfident (repeatNodeId : NodeId)
    (alignment : GraphAlignment) (alignmentStats : RepeatAlignmentStats)
  : Evaluated bool :=
  passesAlignmentFilters ←
    evaluate PassesAlignmentFilters (checkIfPassesAlignmentFilters alignment);
  if negb passesAlignmentFilters then mret false
  else
    doesReadAlignWellOverLeftFlank ←
      evaluate UpstreamAlignmentIsGood
               (checkIfUpstreamAlignmentIsGood repeatNodeId alignment);
    doesReadAlignWellOverRightFlank ←
      evaluate DownstreamAlignmentIsGood
               (checkIfDownstreamAlignmentIsGood repeatNodeId alignment);
    if bool_decide (canonicalAlignmentType alignmentStats = kFlanksRepeat)
       && (negb doesReadAlignWellOverLeftFlank
           && negb doesReadAlignWellOverRightFlank)
    then mret false
    else if bool_decide (canonicalAlignmentType alignmentStats = kSpansRepeat)
            && (negb doesReadAlignWellOverLeftFlank
                || negb doesReadAlignWellOverRightFlank)
    then mret false
    else mret true.

Definition classifyReadAlignment (alignment : GraphAlignment)
  : Method RepeatAlignmentStats :=
  this ← getThis;
  let alignmentType := Classify alignment in
  let numRepeatUnitsOverlapped := countFullOverlaps (repeatNodeId this) alignment in
  mret {| canonicalAlignment := alignment;
          canonicalAlignmentType := alignmentType;
          numRepeatUnitsSpanned := numRepeatUnitsOverlapped |}.

Definition summarizeAlignmentsToReadCounts
    (repeatAlignmentStats : RepeatAlignmentStats) : Method unit :=
  match canonicalAlignmentType repeatAlignmentStats with
  | kSpansRepeat =>
      modifyThis (with_countsOfSpanningReads
        (incrementCountOf (numRepeatUnitsSpanned repeatAlignmentStats)))
  | kFlanksRepeat =>
      modifyThis (with_countsOfFlankingReads
        (incrementCountOf (numRepeatUnitsSpanned repeatAlignmentStats)))
  | kInsideRepeat =>
      modifyThis (with_countsOfInrepeatReads
        (incrementCountOf (numRepeatUnitsSpanned repeatAlignmentStats)))
  | _ => mret tt
  end.

Definition processMates (read : Read) (readAlignment : GraphAlignment)
    (mate : Read) (mateAlignment : GraphAlignment) : Method unit :=
  readAlignmentStats ← classifyReadAlignment readAlignment;
  mateAlignmentStats ← classifyReadAlignment mateAlignment;
  this ← getThis;
  let isReadAlignmentConfident :=
    (checkIfAlignmentIsConfident (repeatNodeId this) readAlignment
                                 readAlignmentStats).1 in
  let isMateAlignmentConfident :=
    (checkIfAlignmentIsConfident (repeatNodeId this) mateAlignment
                                 mateAlignmentStats).1 in
  (if isReadAlignmentConfident
   then
     logTo trace "{} is {} for variant {}"
           [ArgString (readId read);
            ArgAlignmentType (canonicalAlignmentType readAlignmentStats);
            ArgString (variantId_ this)];;
     modifyThis (with_alignmentStatsCalculator (inspect readAlignment));;
     summarizeAlignmentsToReadCounts readAlignmentStats
   else
     logTo debug "Could not confidently aligned {} to repeat node {} of {}\n{}"
           [ArgString (readId read); ArgNodeId (repeatNodeId this);
            ArgString (variantId_ this);
            ArgString (prettyPrint readAlignment (sequence read))]);;
  (if isMateAlignmentConfident
   then
     logTo trace "{} is {} for variant {}"
           [ArgString (readId mate);
            ArgAlignmentType (canonicalAlignmentType mateAlignmentStats);
            ArgString (variantId_ this)];;
     modifyThis (with_alignmentStatsCalculator (inspect mateAlignment));;
     summarizeAlignmentsToReadCounts mateAlignmentStats
   else
     logTo debug "Could not confidently align {} to repeat node {} of {}\n{}"
           [ArgString (readId mate); ArgNodeId (repeatNodeId this);
            ArgString (variantId_ this);
            ArgString (prettyPrint mateAlignment (sequence mate))]).

(** [std::ceil(meanReadLength / static_cast<double>(repeatUnitLength))],
    converted to [int].  Both operands are 32-bit integers, which binary64
    represents exactly, and a quotient of two such integers that is not an
    integer lies further from every integer than the rounding of the
    division can move it; the ceiling of the rounded quotient is the
    ceiling of the exact one, which is what is computed here.  A zero
    denominator, on which the conversion of the source is undefined, is
    excluded by the statements about this function. *)
Definition ceilOfQuotient (numerator denominator : Z) : Z :=
  Qceiling (inject_Z numerator / inject_Z denominator).

Definition analyze (stats : LocusStats) : Method RepeatFindings :=
  this ← getThis;
  let repeatGenotype : option RepeatGenotype := None in
  let genotypeFilter := GenotypeFilter_none in
  let spanningTable := countsOfSpanningReads_ this in
  let flankingTable := countsOfFlankingReads_ this in
  let inrepeatTable := countsOfInrepeatReads_ this in
  let '(spanningTable, flankingTable, inrepeatTable, repeatGenotype, genotypeFilter) :=
    if (meanReadLength stats =? 0)
       || (depth stats <? minLocusCoverage (genotyperParams_ this))%float
    then
      let genotypeFilter := Z.lor genotypeFilter kLowDepth in
      (spanningTable, flankingTable, inrepeatTable, repeatGenotype, genotypeFilter)
    else
      let repeatUnitLength := Z.of_nat (String.length (repeatUnit_ this)) in
      let propCorrectMolecules := 0.97%float in
      let maxNumUnitsInRead :=
        ceilOfQuotient (meanReadLength stats) repeatUnitLength in
      let spanningTable := collapseTopElements spanningTable maxNumUnitsInRead in
      let flankingTable := collapseTopElements flankingTable maxNumUnitsInRead in
      let inrepeatTable := collapseTopElements inrepeatTable maxNumUnitsInRead in
      let candidateAlleleSizes :=
        generateCandidateAlleleSizes spanningTable flankingTable inrepeatTable in
      let haplotypeDepth :=
        if bool_decide (alleleCount stats = kTwo)
        then (depth stats / 2)%float else depth stats in
      let minBreakpointSpanningReads :=
        if bool_decide (alleleCount stats = kTwo)
        then minBreakpointSpanningReads (genotyperParams_ this)
        else minBreakpointSpanningReads (genotyperParams_ this) ÷ 2 in
      let repeatGenotyper :=
        {| genotyper_haplotypeDepth := haplotypeDepth;
           genotyper_alleleCount := alleleCount stats;
           genotyper_repeatUnitLength := repeatUnitLength;
           genotyper_maxNumUnitsInRead := maxNumUnitsInRead;
           genotyper_propCorrectMolecules := propCorrectMolecules;
           genotyper_spanningTable := spanningTable;
           genotyper_flankingTable := flankingTable;
           genotyper_inrepeatTable := inrepeatTable;
           genotyper_countOfInrepeatReadPairs := countOfInrepeatReadPairs_ this |} in
      let repeatGenotype := genotypeRepeat repeatGenotyper candidateAlleleSizes in
      let alignmentStats := getStats (alignmentStatsCalculator_ this) in
      let genotypeFilter :=
        if (numReadsSpanningRightBreakpoint alignmentStats
            <? minBreakpointSpanningReads)
           || (numReadsSpanningLeftBreakpoint alignmentStats
               <? minBreakpointSpanningReads)
        then Z.lor genotypeFilter kLowDepth
        else genotypeFilter in
      (spanningTable, flankingTable, inrepeatTable, repeatGenotype, genotypeFilter)
  in
  mret {| findings_spanningTable := spanningTable;
          findings_flankingTable := flankingTable;
          findings_inrepeatTable := inrepeatTable;
          findings_alleleCount := alleleCount stats;
          findings_repeatGenotype := repeatGenotype;
          findings_genotypeFilter := genotypeFilter |}.

(** ** Driving the analyzer *)

Fixpoint forEachPair (body : MatePair → Method unit) (pairs : list MatePair)
  : Method unit :=
  match pairs with
  | [] => mret tt
  | mates :: rest => body mates;; forEachPair body rest
  end.

Definition processMatesOf (mates : MatePair) : Method unit :=
  processMates (pair_read mates) (pair_readAlignment mates)
               (pair_mate mates) (pair_mateAlignment mates).

(** Modelled from the spec: the caller of [processMates], which is not part
    of the translation unit, compares the classifications of the two mates
    and increments [countOfInrepeatReadPairs_] when both are inside the
    repeat. *)
Definition processReadPair (mates : MatePair) : Method unit :=
  processMatesOf mates;;
  readAlignmentStats ← classifyReadAlignment (pair_readAlignment mates);
  mateAlignmentStats ← classifyReadAlignment (pair_mateAlignment mates);
  if bool_decide (canonicalAlignmentType readAlignmentStats = kInsideRepeat)
     && bool_decide (canonicalAlignmentType mateAlignmentStats = kInsideRepeat)
  then modifyThis (with_countOfInrepeatReadPairs (λ count, count + 1))
  else mret tt.

(** ** Vocabulary of the specification *)

(** The statistics of an alignment as [classifyReadAlignment] builds them. *)
Definition statsOf (repeatNode : NodeId) (alignment : GraphAlignment)
  : RepeatAlignmentStats :=
  {| canonicalAlignment := alignment;
     canonicalAlignmentType := Classify alignment;
     numRepeatUnitsSpanned := countFullOverlaps repeatNode alignment |}.

Definition isConfident (repeatNode : NodeId) (alignment : GraphAlignment) : bool :=
  (checkIfAlignmentIsConfident repeatNode alignment
                               (statsOf repeatNode alignment)).1.

(** What one alignment adds to the bucket [size] of the table that collects
    alignments of type [type]. *)
Definition evidenceOf (repeatNode : NodeId) (type : AlignmentType) (size : Z)
    (alignment : GraphAlignment) : Z :=
  if isConfident repeatNode alignment
     && bool_decide (canonicalAlignmentType (statsOf repeatNode alignment) = type)
     && bool_decide (numRepeatUnitsSpanned (statsOf repeatNode alignment) = size)
  then 1 else 0.

(** What one alignment does to the breakpoint statistics. *)
Definition fedWith (repeatNode : NodeId) (alignment : GraphAlignment)
    (calculator : GraphVariantAlignmentStats) : GraphVariantAlignmentStats :=
  if isConfident repeatNode alignment then inspect alignment calculator
  else calculator.

Definition bothMatesInside (mates : MatePair) : bool :=
  bool_decide (Classify (pair_readAlignment mates) = kInsideRepeat)
  && bool_decide (Classify (pair_mateAlignment mates) = kInsideRepeat).

(** What one alignment does to the members of the analyzer: a confident
    alignment is inspected and counted, any other leaves them alone. *)
Definition counted (stats : RepeatAlignmentStats) (this : RepeatAnalyzer)
  : RepeatAnalyzer :=
  match canonicalAlignmentType stats with
  | kSpansRepeat =>
      with_countsOfSpanningReads (incrementCountOf (numRepeatUnitsSpanned stats)) this
  | kFlanksRepeat =>
      with_countsOfFlankingReads (incrementCountOf (numRepeatUnitsSpanned stats)) this
  | kInsideRepeat =>
      with_countsOfInrepeatReads (incrementCountOf (numRepeatUnitsSpanned stats)) this
  | kOtherAlignment => this
  end.

Definition contribute (alignment : GraphAlignment) (this : RepeatAnalyzer)
  : RepeatAnalyzer :=
  if isConfident (repeatNodeId this) alignment
  then counted (statsOf (repeatNodeId this) alignment)
               (with_alignmentStatsCalculator (inspect alignment) this)
  else this.

Definition contributeMates (mates : MatePair) (this : RepeatAnalyzer)
  : RepeatAnalyzer :=
  contribute (pair_mateAlignment mates) (contribute (pair_readAlignment mates) this).

(** The locus has too little data for genotyping. *)
Definition insufficientData (stats : LocusStats) (this : RepeatAnalyzer) : Prop :=
  meanReadLength stats = 0
  ∨ (depth stats <? minLocusCoverage (genotyperParams_ this))%float = true.

(** The threshold of the breakpoint filter as the specification words it. *)
Definition breakpointThreshold (stats : LocusStats) (this : RepeatAnalyzer) : Z :=
  match alleleCount stats with
  | kTwo => minBreakpointSpanningReads (genotyperParams_ this)
  | kOne => minBreakpointSpanningReads (genotyperParams_ this) ÷ 2
  end.

(** What the alignments of a sequence of pairs add to the bucket [size] of
    the table that collects alignments of type [type]. *)
Definition evidenceOfAll (repeatNode : NodeId) (type : AlignmentType) (size : Z)
    (pairs : list MatePair) : Z :=
  foldr (λ mates total,
           evidenceOf repeatNode type size (pair_readAlignment mates)
           + evidenceOf repeatNode type size (pair_mateAlignment mates)
           + total) 0 pairs.

(** One read pair has no confident alignment. *)
Definition unconfidentMates (repeatNode : NodeId) (mates : MatePair) : Prop :=
  isConfident repeatNode (pair_readAlignment mates) = false
  ∧ isConfident repeatNode (pair_mateAlignment mates) = false.

End Analyzer.

(** ** A concrete environment

    A small instance of the collaborators, used to run the analyzer on
    concrete reads: an alignment is described by the answers the
    collaborators give on it, and the genotyper reports the candidate sizes
    it was given. *)
Record SampleAlignment := {
  sample_passes : bool;
  sample_upstream : bool;
  sample_downstream : bool;
  sample_type : AlignmentType;
  sample_units : Z;
  sample_left : bool;
  sample_right : bool
}.

Definition sampleCollaborators : Collaborators :=
  {| GraphAlignment := SampleAlignment;
     RepeatGenotype := list Z;
     checkIfPassesAlignmentFilters := sample_passes;
     checkIfUpstreamAlignmentIsGood := λ _, sample_upstream;
     checkIfDownstreamAlignmentIsGood := λ _, sample_downstream;
     Classify := sample_type;
     countFullOverlaps := λ _, sample_units;
     prettyPrint := λ _ bases, bases;
     spansLeftBreakpoint := sample_left;
     spansRightBreakpoint := sample_right;
     genotypeRepeat := λ _ candidateAlleleSizes, Some candidateAlleleSizes;
     kLowDepth := 1 |}.

Definition sampleAnalyzer : RepeatAnalyzer :=
  {| variantId_ := "HTT";
     repeatNodeId := 1%N;
     repeatUnit_ := "CAG";
     genotyperParams_ :=
       {| minLocusCoverage := 10%float; minBreakpointSpanningReads := 5 |};
     alignmentStatsCalculator_ :=
       {| numReadsSpanningLeftBreakpoint := 0;
          numReadsSpanningRightBreakpoint := 0 |};
     countsOfSpanningReads_ := ∅;
     countsOfFlankingReads_ := ∅;
     countsOfInrepeatReads_ := ∅;
     countOfInrepeatReadPairs_ := 0 |}.

Definition sampleMachine : Machine :=
  {| analyzer := sampleAnalyzer; console := [] |}.

Definition sampleRead (name : string) : Read :=
  {| readId := name; sequence := "CAGCAGCAG" |}.

Definition spanningAlignment (units : Z) : SampleAlignment :=
  {| sample_passes := true; sample_upstream := true; sample_downstream := true;
     sample_type := kSpansRepeat; sample_units := units;
     sample_left := true; sample_right := true |}.

Definition flankingAlignment (units : Z) : SampleAlignment :=
  {| sample_passes := true; sample_upstream := true; sample_downstream := false;
     sample_type := kFlanksRepeat; sample_units := units;
     sample_left := true; sample_right := false |}.

Definition inrepeatAlignment (units : Z) : SampleAlignment :=
  {| sample_passes := true; sample_upstream := false; sample_downstream := false;
     sample_type := kInsideRepeat; sample_units := units;
     sample_left := false; sample_right := false |}.

Definition rejectedAlignment (units : Z) : SampleAlignment :=
  {| sample_passes := false; sample_upstream := true; sample_downstream := true;
     sample_type := kSpansRepeat; sample_units := units;
     sample_left := true; sample_right := true |}.

Definition sampleMates (readAlignment mateAlignment : SampleAlignment)
  : @MatePair sampleCollaborators :=
  @Build_MatePair sampleCollaborators
    (sampleRead "read/1") readAlignment (sampleRead "read/2") mateAlignment.

(** An analyzer that has seen reads: spanning sizes 3 and 15, a flanking
    size 9, two alignments over the left breakpoint and seven over the
    right one. *)
Definition loadedAnalyzer : RepeatAnalyzer :=
  {| variantId_ := "HTT";
     repeatNodeId := 1%N;
     repeatUnit_ := "CAG";
     genotyperParams_ :=
       {| minLocusCoverage := 10%float; minBreakpointSpanningReads := 5 |};
     alignmentStatsCalculator_ :=
       {| numReadsSpanningLeftBreakpoint := 2;
          numReadsSpanningRightBreakpoint := 7 |};
     countsOfSpanningReads_ := {[3 := 2; 15 := 4]};
     countsOfFlankingReads_ := {[9 := 1]};
     countsOfInrepeatReads_ := ∅;
     countOfInrepeatReadPairs_ := 0 |}.

Definition loadedMachine : Machine :=
  {| analyzer := loadedAnalyzer; console := [] |}.

Definition unreadStats : LocusStats :=
  {| alleleCount := kTwo; meanReadLength := 0; depth := 30%float |}.

Definition diploidStats : LocusStats :=
  {| alleleCount := kTwo; meanReadLength := 35; depth := 30%float |}.

Definition haploidStats : LocusStats :=
  {| alleleCount := kOne; meanReadLength := 35; depth := 30%float |}.

(** The empty analyzer after three pairs of spanning reads: six alignments
    over each breakpoint. *)
Definition spannedMachine : Machine :=
  execute (forEachPair (@processMatesOf sampleCollaborators)
             [sampleMates (spanningAlignment 7) (spanningAlignment 7);
              sampleMates (spanningAlignment 7) (spanningAlignment 9);
              sampleMates (spanningAlignment 9) (spanningAlignment 9)])
          sampleMachine.

(** An empty analyzer whose breakpoint threshold is configured as 1. *)
Definition lenientMachine : Machine :=
  {| analyzer :=
       {| variantId_ := "HTT";
          repeatNodeId := 1%N;
          repeatUnit_ := "CAG";
          genotyperParams_ :=
            {| minLocusCoverage := 10%float; minBreakpointSpanningReads := 1 |};
          alignmentStatsCalculator_ :=
            {| numReadsSpanningLeftBreakpoint := 0;
               numReadsSpanningRightBreakpoint := 0 |};
          countsOfSpanningReads_ := ∅;
          countsOfFlankingReads_ := ∅;
          countsOfInrepeatReads_ := ∅;
          countOfInrepeatReadPairs_ := 0 |};
     console := [] |}.

(** ** Proof automation *)

(** Running a method: unfold the monad down to the pair it returns. *)
Ltac run_method :=
  unfold execute, result, mbind, Method_bind, mret, Method_ret,
         getThis, modifyThis, logTo;
  cbn beta iota zeta.

(** The cases of one contribution: confident or not, then by type. *)
Ltac unfold_contribute :=
  unfold contribute, evidenceOf, fedWith;
  destruct (isConfident _ _); cbn [andb]; rewrite ?Z.add_0_r; try reflexivity;
  unfold counted, statsOf;
  cbn [canonicalAlignmentType numRepeatUnitsSpanned];
  destruct (Classify _); cbn; rewrite ?Z.add_0_r; try reflexivity.

(** * Properties of the count tables *)

Section CountTableFacts.
Implicit Types (table : gmap Z Z) (element size : Z).

Lemma countOf_empty element : countOf element ∅ = 0.
Proof. unfold countOf. by rewrite lookup_empty. Qed.

Lemma countOf_insert table element size count :
  countOf size (<[element := count]> table)
  = if decide (element = size) then count else countOf size table.
Proof.
  unfold countOf. rewrite lookup_insert. by case_decide.
Qed.

Lemma countOf_incrementCountOf table element size :
  countOf size (incrementCountOf element table)
  = countOf size table + (if decide (element = size) then 1 else 0).
Proof.
  unfold incrementCountOf. rewrite countOf_insert.
  case_decide; subst; lia.
Qed.

Lemma incrementCountOf_comm table element size :
  incrementCountOf element (incrementCountOf size table)
  = incrementCountOf size (incrementCountOf element table).
Proof.
  destruct (decide (element = size)) as [->|Hne]; [done|].
  unfold incrementCountOf. rewrite !countOf_insert.
  rewrite decide_False by done. rewrite decide_False by done.
  by apply insert_insert_ne.
Qed.

Lemma elem_of_getElementsWithNonzeroCounts table size :
  size ∈ getElementsWithNonzeroCounts table ↔ supported table size.
Proof.
  unfold getElementsWithNonzeroCounts, supported, countOf.
  rewrite merge_sort_Permutation, list_elem_of_fmap.
  split.
  - intros [[element count] [-> Hin]].
    apply elem_of_map_to_list, map_lookup_filter_Some in Hin
      as [Hlookup Hcount].
    simpl in *. by rewrite Hlookup.
  - intros Hcount. destruct (table !! size) as [count|] eqn:Hlookup; [|done].
    exists (size, count). split; [done|].
    apply elem_of_map_to_list, map_lookup_filter_Some. done.
Qed.

Lemma NoDup_getElementsWithNonzeroCounts table :
  NoDup (getElementsWithNonzeroCounts table).
Proof.
  unfold getElementsWithNonzeroCounts.
  rewrite merge_sort_Permutation. apply NoDup_fst_map_to_list.
Qed.

Lemma Sorted_getElementsWithNonzeroCounts table :
  Sorted Z.le (getElementsWithNonzeroCounts table).
Proof. apply (Sorted_merge_sort Z.le). Qed.

Lemma getElementsWithNonzeroCounts_nil table :
  getElementsWithNonzeroCounts table = [] ↔ ∀ size, ¬ supported table size.
Proof.
  split.
  - intros Hnil size Hsize%elem_of_getElementsWithNonzeroCounts.
    rewrite Hnil in Hsize. by apply elem_of_nil in Hsize.
  - intros Hnone.
    destruct (getElementsWithNonzeroCounts table) as [|size sizes] eqn:Hsizes;
      [done|].
    destruct (Hnone size). apply elem_of_getElementsWithNonzeroCounts.
    rewrite Hsizes. by left.
Qed.

Lemma max_element_ge largest rest :
  largest ≤ max_element largest rest
  ∧ ∀ size, size ∈ rest → size ≤ max_element largest rest.
Proof.
  revert largest. induction rest as [|next rest IH]; intros largest; simpl.
  - split; [lia|]. intros size Hin. by apply elem_of_nil in Hin.
  - destruct (IH (if largest <? next then next else largest)) as [Hge Hall].
    split.
    + destruct (Z.ltb_spec largest next); lia.
    + intros size [->|Hin]%elem_of_cons; [|by apply Hall].
      destruct (Z.ltb_spec largest next); lia.
Qed.

Lemma max_element_elem_of largest rest :
  max_element largest rest ∈ largest :: rest.
Proof.
  revert largest. induction rest as [|next rest IH]; intros largest; simpl.
  - by left.
  - specialize (IH (if largest <? next then next else largest)).
    apply elem_of_cons in IH as [Heq|Hin].
    + rewrite Heq. destruct (largest <? next); [right; by left|by left].
    + right. by right.
Qed.

Lemma longestOf_is_longest table :
  is_longest table (longestOf (getElementsWithNonzeroCounts table)).
Proof.
  destruct (getElementsWithNonzeroCounts table) as [|first rest] eqn:Hsizes.
  - left. split; [|done]. by apply getElementsWithNonzeroCounts_nil.
  - right. simpl. split.
    + apply elem_of_getElementsWithNonzeroCounts. rewrite Hsizes.
      apply max_element_elem_of.
    + intros size Hsize%elem_of_getElementsWithNonzeroCounts.
      rewrite Hsizes in Hsize.
      destruct (max_element_ge first rest) as [Hfirst Hrest].
      apply elem_of_cons in Hsize as [->|Hin]; [done|by apply Hrest].
Qed.

Lemma is_longest_unique table longest longest' :
  is_longest table longest → is_longest table longest' → longest = longest'.
Proof.
  intros [[Hnone ->]|[Hsup Hmax]] [[Hnone' ->]|[Hsup' Hmax']]; try done.
  - by destruct (Hnone longest').
  - by destruct (Hnone' longest).
  - specialize (Hmax _ Hsup'). specialize (Hmax' _ Hsup). lia.
Qed.

Lemma std_max_Zmax a b : std_max a b = Z.max a b.
Proof. unfold std_max. destruct (Z.ltb_spec a b); lia. Qed.

End CountTableFacts.

(** * Candidate allele sizes *)

Section CandidateSizes.
Implicit Types (spanningTable flankingTable inrepeatTable : gmap Z Z).

Lemma generateCandidateAlleleSizes_unfold
    spanningTable flankingTable inrepeatTable
    longestSpanning longestFlanking longestInrepeat :
  is_longest spanningTable longestSpanning →
  is_longest flankingTable longestFlanking →
  is_longest inrepeatTable longestInrepeat →
  generateCandidateAlleleSizes spanningTable flankingTable inrepeatTable
  = getElementsWithNonzeroCounts spanningTable
    ++ (if bool_decide (longestSpanning < Z.max longestFlanking longestInrepeat)
        then [Z.max longestFlanking longestInrepeat] else []).
Proof.
  intros Hspanning Hflanking Hinrepeat.
  unfold generateCandidateAlleleSizes. rewrite std_max_Zmax.
  rewrite (is_longest_unique _ _ _ (longestOf_is_longest spanningTable) Hspanning).
  rewrite (is_longest_unique _ _ _ (longestOf_is_longest flankingTable) Hflanking).
  rewrite (is_longest_unique _ _ _ (longestOf_is_longest inrepeatTable) Hinrepeat).
  destruct (Z.ltb_spec longestSpanning (Z.max longestFlanking longestInrepeat)).
  - by rewrite bool_decide_true.
  - rewrite bool_decide_false by lia. by rewrite app_nil_r.
Qed.

(** C1.  [generateCandidateAlleleSizes] returns the sizes with non-zero
    spanning support, each once, followed by
    [longestNonSpanning = max longestFlanking longestInrepeat] exactly when
    [longestSpanning < longestNonSpanning], where the longest size of a
    table is its largest supported size and 0 when it supports none.  On
    spanning [{5:2}], flanking [{8:1}] and an empty in-repeat table the
    candidates are 5 and 8; on spanning [{10:3}], flanking [{4:1}] and
    in-repeat [{6:1}] the only candidate is 10. *)
Theorem generateCandidateAlleleSizes_spec :
  (∀ spanningTable flankingTable inrepeatTable
     longestSpanning longestFlanking longestInrepeat,
     is_longest spanningTable longestSpanning →
     is_longest flankingTable longestFlanking →
     is_longest inrepeatTable longestInrepeat →
     let longestNonSpanning := Z.max longestFlanking longestInrepeat in
     ∃ spanningSizes,
       NoDup spanningSizes
       ∧ (∀ size, size ∈ spanningSizes ↔ supported spanningTable size)
       ∧ generateCandidateAlleleSizes spanningTable flankingTable inrepeatTable
         = spanningSizes
           ++ (if bool_decide (longestSpanning < longestNonSpanning)
               then [longestNonSpanning] else []))
  ∧ generateCandidateAlleleSizes {[5 := 2]} {[8 := 1]} ∅ = [5; 8]
  ∧ generateCandidateAlleleSizes {[10 := 3]} {[4 := 1]} {[6 := 1]} = [10].
Proof.
  split; [|split; by vm_compute].
  intros spanningTable flankingTable inrepeatTable
         longestSpanning longestFlanking longestInrepeat
         Hspanning Hflanking Hinrepeat longestNonSpanning.
  exists (getElementsWithNonzeroCounts spanningTable).
  split; [apply NoDup_getElementsWithNonzeroCounts|].
  split; [intros size; apply elem_of_getElementsWithNonzeroCounts|].
  by apply generateCandidateAlleleSizes_unfold.
Qed.

Lemma generateCandidateAlleleSizes_spec_witness :
  is_longest {[5 := 2]} 5 ∧ is_longest {[8 := 1]} 8 ∧ is_longest ∅ 0
  ∧ ∃ spanningSizes,
      NoDup spanningSizes
      ∧ (∀ size, size ∈ spanningSizes ↔ supported {[5 := 2]} size)
      ∧ generateCandidateAlleleSizes {[5 := 2]} {[8 := 1]} ∅
        = spanningSizes ++ (if bool_decide (5 < Z.max 8 0) then [Z.max 8 0] else []).
Proof.
  assert (H5 : is_longest {[5 := 2]} 5)
    by exact (longestOf_is_longest {[5 := 2]}).
  assert (H8 : is_longest {[8 := 1]} 8)
    by exact (longestOf_is_longest {[8 := 1]}).
  assert (H0 : is_longest ∅ 0) by exact (longestOf_is_longest ∅).
  split; [exact H5|]. split; [exact H8|]. split; [exact H0|].
  exact (proj1 generateCandidateAlleleSizes_spec
               {[5 := 2]} {[8 := 1]} ∅ 5 8 0 H5 H8 H0).
Defined.

(** C10 fails as stated: with no spanning evidence and one flanking read
    that covers no whole repeat unit, the candidate list is empty although
    the flanking table is not. *)
Lemma candidateSizes_empty_with_flanking_evidence :
  ¬ (generateCandidateAlleleSizes ∅ {[0 := 1]} ∅ = []
     ↔ (∀ size, ¬ supported ∅ size)
       ∧ (∀ size, ¬ supported {[0 := 1]} size)
       ∧ (∀ size, ¬ supported ∅ size)).
Proof.
  intros [Hempty _].
  destruct (Hempty eq_refl) as (_ & Hflanking & _).
  by apply (Hflanking 0).
Qed.

(** C10, amended.  The candidate list has no duplicates: when the longest
    non-spanning size ties the longest spanning size nothing is appended,
    and an appended size is larger than every size with spanning support.
    The list is empty exactly when no size has spanning support and no
    positive size has flanking or in-repeat support. *)
Theorem generateCandidateAlleleSizes_NoDup
    spanningTable flankingTable inrepeatTable
    longestSpanning longestFlanking longestInrepeat :
  is_longest spanningTable longestSpanning →
  is_longest flankingTable longestFlanking →
  is_longest inrepeatTable longestInrepeat →
  let longestNonSpanning := Z.max longestFlanking longestInrepeat in
  let candidateSizes :=
    generateCandidateAlleleSizes spanningTable flankingTable inrepeatTable in
  NoDup candidateSizes
  ∧ (longestSpanning = longestNonSpanning →
     candidateSizes = getElementsWithNonzeroCounts spanningTable)
  ∧ (longestSpanning < longestNonSpanning →
     candidateSizes
     = getElementsWithNonzeroCounts spanningTable ++ [longestNonSpanning]
     ∧ ∀ size, supported spanningTable size → size < longestNonSpanning)
  ∧ (candidateSizes = []
     ↔ (∀ size, ¬ supported spanningTable size)
       ∧ ∀ size, 0 < size →
           ¬ supported flankingTable size ∧ ¬ supported inrepeatTable size).
Proof.
  intros Hspanning Hflanking Hinrepeat longestNonSpanning candidateSizes.
  assert (Hunfold := generateCandidateAlleleSizes_unfold _ _ _ _ _ _
                       Hspanning Hflanking Hinrepeat).
  fold longestNonSpanning candidateSizes in Hunfold.
  assert (Hle : ∀ size, supported spanningTable size → size ≤ longestSpanning).
  { intros size Hsize. destruct Hspanning as [[Hnone _]|[_ Hmax]].
    - by destruct (Hnone size).
    - by apply Hmax. }
  split; [|split; [|split]].
  - rewrite Hunfold. apply NoDup_app. split; [|split].
    + apply NoDup_getElementsWithNonzeroCounts.
    + intros size Hsize%elem_of_getElementsWithNonzeroCounts Hin.
      case_bool_decide; [|by apply elem_of_nil in Hin].
      apply list_elem_of_singleton in Hin. specialize (Hle _ Hsize). lia.
    + case_bool_decide; [apply NoDup_singleton|apply NoDup_nil_2].
  - intros Htie. rewrite Hunfold, bool_decide_false by lia.
    by rewrite app_nil_r.
  - intros Hlt. rewrite Hunfold, bool_decide_true by done.
    split; [done|]. intros size Hsize. specialize (Hle _ Hsize). lia.
  - rewrite Hunfold. split.
    + intros [Hnil Hextra]%app_eq_nil.
      pose proof (proj1 (getElementsWithNonzeroCounts_nil _) Hnil) as Hnone.
      case_bool_decide as Hlt; [done|]. split; [done|].
      assert (longestSpanning = 0) as ->.
      { destruct Hspanning as [[_ ?]|[Hsup _]]; [done|by destruct (Hnone _ Hsup)]. }
      intros size Hpos. split; intros Hsize.
      * destruct Hflanking as [[Hno _]|[_ Hmax]]; [by destruct (Hno size)|].
        specialize (Hmax _ Hsize). lia.
      * destruct Hinrepeat as [[Hno _]|[_ Hmax]]; [by destruct (Hno size)|].
        specialize (Hmax _ Hsize). lia.
    + intros [Hnone Hpositive].
      rewrite (proj2 (getElementsWithNonzeroCounts_nil _) Hnone).
      assert (longestSpanning = 0) as ->.
      { destruct Hspanning as [[_ ?]|[Hsup _]]; [done|by destruct (Hnone _ Hsup)]. }
      rewrite bool_decide_false; [done|].
      assert (longestFlanking ≤ 0).
      { destruct Hflanking as [[_ ->]|[Hsup _]]; [done|].
        destruct (decide (0 < longestFlanking)) as [Hpos|]; [|lia].
        by destruct (proj1 (Hpositive _ Hpos)). }
      assert (longestInrepeat ≤ 0).
      { destruct Hinrepeat as [[_ ->]|[Hsup _]]; [done|].
        destruct (decide (0 < longestInrepeat)) as [Hpos|]; [|lia].
        by destruct (proj2 (Hpositive _ Hpos)). }
      lia.
Qed.

Lemma generateCandidateAlleleSizes_NoDup_witness :
  is_longest {[5 := 2; 7 := 1]} 7 ∧ is_longest {[7 := 4]} 7 ∧ is_longest ∅ 0
  ∧ NoDup (generateCandidateAlleleSizes {[5 := 2; 7 := 1]} {[7 := 4]} ∅)
  ∧ generateCandidateAlleleSizes {[5 := 2; 7 := 1]} {[7 := 4]} ∅ = [5; 7].
Proof.
  assert (Hs : is_longest {[5 := 2; 7 := 1]} 7)
    by exact (longestOf_is_longest {[5 := 2; 7 := 1]}).
  assert (Hf : is_longest {[7 := 4]} 7)
    by exact (longestOf_is_longest {[7 := 4]}).
  assert (Hi : is_longest ∅ 0) by exact (longestOf_is_longest ∅).
  split; [exact Hs|]. split; [exact Hf|]. split; [exact Hi|].
  destruct (generateCandidateAlleleSizes_NoDup
              {[5 := 2; 7 := 1]} {[7 := 4]} ∅ 7 7 0 Hs Hf Hi)
    as (Hnodup & Htie & _).
  split; [exact Hnodup|]. rewrite (Htie eq_refl). reflexivity.
Defined.

End CandidateSizes.

(** * The confidence filter *)

Section ConfidenceFilter.
Context `{Collaborators}.

(** C2.  [checkIfAlignmentIsConfident] answers [false] as soon as the
    generic alignment filter fails, without evaluating a flank predicate.
    When the filter passes both flank predicates are evaluated and the
    answer is: for a flanking alignment, that the left or the right flank is
    good; for a spanning alignment, that both are; for any other type,
    [true]. *)
Theorem checkIfAlignmentIsConfident_spec
    (repeatNode : NodeId) (alignment : GraphAlignment)
    (alignmentStats : RepeatAlignmentStats) :
  let goodLeftFlank := checkIfUpstreamAlignmentIsGood repeatNode alignment in
  let goodRightFlank := checkIfDownstreamAlignmentIsGood repeatNode alignment in
  let answer := checkIfAlignmentIsConfident repeatNode alignment alignmentStats in
  if checkIfPassesAlignmentFilters alignment
  then
    answer.2 = [PassesAlignmentFilters; UpstreamAlignmentIsGood;
                DownstreamAlignmentIsGood]
    ∧ answer.1 = match canonicalAlignmentType alignmentStats with
                 | kFlanksRepeat => goodLeftFlank || goodRightFlank
                 | kSpansRepeat => goodLeftFlank && goodRightFlank
                 | _ => true
                 end
  else answer = (false, [PassesAlignmentFilters]).
Proof.
  unfold checkIfAlignmentIsConfident, evaluate. simpl.
  destruct (checkIfPassesAlignmentFilters alignment); simpl; [|done].
  destruct (canonicalAlignmentType alignmentStats),
           (checkIfUpstreamAlignmentIsGood repeatNode alignment),
           (checkIfDownstreamAlignmentIsGood repeatNode alignment);
    by compute.
Qed.

End ConfidenceFilter.

(** * Locus-level analysis *)

Section Analysis.
Context `{Collaborators}.

Lemma insufficientData_true stats this :
  insufficientData stats this →
  (meanReadLength stats =? 0)
  || (depth stats <? minLocusCoverage (genotyperParams_ this))%float = true.
Proof.
  intros [Hlength|Hdepth].
  - rewrite Hlength. done.
  - rewrite Hdepth. apply orb_true_r.
Qed.

Lemma insufficientData_false stats this :
  ¬ insufficientData stats this →
  (meanReadLength stats =? 0)
  || (depth stats <? minLocusCoverage (genotyperParams_ this))%float = false.
Proof.
  intros Hsufficient. apply orb_false_intro.
  - apply Z.eqb_neq. intros Hlength. apply Hsufficient. by left.
  - apply not_true_is_false. intros Hdepth. apply Hsufficient. by right.
Qed.

(** C3.  When [meanReadLength] is 0 or [depth] is below
    [minLocusCoverage], [analyze] does not genotype, whatever the genotyper
    would answer: the findings carry the filter [kLowDepth], no genotype,
    and the three accumulated tables as they are. *)
Theorem analyze_insufficient_data (stats : LocusStats) (machine : Machine) :
  meanReadLength stats = 0
  ∨ (depth stats <? minLocusCoverage (genotyperParams_ (analyzer machine)))%float
    = true →
  let findings := result (analyze stats) machine in
  findings_genotypeFilter findings = kLowDepth
  ∧ hasFlag (findings_genotypeFilter findings) kLowDepth
  ∧ findings_repeatGenotype findings = None
  ∧ findings_spanningTable findings = countsOfSpanningReads_ (analyzer machine)
  ∧ findings_flankingTable findings = countsOfFlankingReads_ (analyzer machine)
  ∧ findings_inrepeatTable findings = countsOfInrepeatReads_ (analyzer machine).
Proof.
  intros Hinsufficient findings. subst findings.
  unfold analyze. run_method. cbn [analyzer fst].
  rewrite (insufficientData_true _ _ Hinsufficient). simpl.
  repeat split. unfold hasFlag. apply Z.land_diag.
Qed.

(** C8.  [analyze] leaves the analyzer and its log sink as they were, so
    that a second call with the same [LocusStats] returns the same
    findings. *)
Theorem analyze_read_only (stats : LocusStats) (machine : Machine) :
  execute (analyze stats) machine = machine
  ∧ result (analyze stats) (execute (analyze stats) machine)
    = result (analyze stats) machine.
Proof.
  assert (Hsame : execute (analyze stats) machine = machine).
  { unfold analyze. run_method. by destruct (_ || _). }
  split; [done|]. by rewrite Hsame.
Qed.

End Analysis.

(** * Collapsing a table *)

Section CollapseFacts.
Implicit Types (table collapsed : gmap Z Z) (upperBound element size count : Z).

Lemma countOf_None table element : table !! element = None → countOf element table = 0.
Proof. unfold countOf. by intros ->. Qed.

Lemma countAbove_empty upperBound : countAbove upperBound ∅ = 0.
Proof. unfold countAbove. by rewrite map_fold_empty. Qed.

Lemma countAbove_insert upperBound table element count :
  table !! element = None →
  countAbove upperBound (<[element := count]> table)
  = countAbove upperBound table + (if upperBound <? element then count else 0).
Proof.
  intros Hfresh. unfold countAbove.
  rewrite map_fold_insert_L; [|intros j1 j2 z1 z2 y _ _ _|done].
  - destruct (upperBound <? element); lia.
  - destruct (upperBound <? j1), (upperBound <? j2); lia.
Qed.

Lemma collapseTopElements_countOf table upperBound size :
  countOf size (collapseTopElements table upperBound)
  = if decide (size < upperBound) then countOf size table
    else if decide (size = upperBound)
         then countOf upperBound table + countAbove upperBound table
         else 0.
Proof.
  revert size. unfold collapseTopElements.
  apply (map_fold_weak_ind
           (λ collapsed table, ∀ size,
              countOf size collapsed
              = if decide (size < upperBound) then countOf size table
                else if decide (size = upperBound)
                     then countOf upperBound table + countAbove upperBound table
                     else 0)).
  - intros size. rewrite countAbove_empty, !countOf_empty.
    by repeat case_decide.
  - intros element count m collapsed Hfresh IH size.
    unfold collapseBucket. cbn zeta.
    rewrite countAbove_insert by done.
    pose proof (countOf_None m element Hfresh) as Hzero.
    rewrite !countOf_insert, !IH.
    destruct (Z.ltb_spec upperBound element);
      [rewrite Z.min_r by lia|rewrite Z.min_l by lia];
      repeat case_decide; subst; lia.
Qed.

Lemma collapseTopElements_lookup_above table upperBound size :
  upperBound < size → collapseTopElements table upperBound !! size = None.
Proof.
  intros Habove. unfold collapseTopElements.
  apply (map_fold_weak_ind (λ collapsed _, collapsed !! size = None)).
  - apply lookup_empty.
  - intros element count m collapsed _ IH. unfold collapseBucket. cbn zeta.
    rewrite lookup_insert_ne by lia. done.
Qed.

Lemma ceilOfQuotient_spec numerator denominator :
  0 < denominator →
  (ceilOfQuotient numerator denominator - 1) * denominator < numerator
  ∧ numerator ≤ ceilOfQuotient numerator denominator * denominator.
Proof.
  intros Hpos. destruct denominator as [|divisor|divisor]; try lia.
  assert (Heq : ceilOfQuotient numerator (Z.pos divisor)
                = - ((- numerator) / Z.pos divisor)).
  { unfold ceilOfQuotient, Qceiling, Qfloor. simpl.
    rewrite Z.mul_1_r. done. }
  rewrite Heq.
  pose proof (Z.div_mod (- numerator) (Z.pos divisor)).
  pose proof (Z.mod_pos_bound (- numerator) (Z.pos divisor)).
  nia.
Qed.

End CollapseFacts.

(** * Analysis of a locus with sufficient data *)

Section SufficientData.
Context `{Collaborators}.

Lemma breakpointThreshold_eq stats this :
  (if bool_decide (alleleCount stats = kTwo)
   then minBreakpointSpanningReads (genotyperParams_ this)
   else minBreakpointSpanningReads (genotyperParams_ this) ÷ 2)
  = breakpointThreshold stats this.
Proof. unfold breakpointThreshold. by destruct (alleleCount stats). Qed.

(** C4.  With sufficient data, when the count of alignments spanning the
    left or the right breakpoint is below the threshold (the configured
    [minBreakpointSpanningReads] for a diploid locus, half of it, rounded
    towards zero, for a haploid one), the findings carry [kLowDepth]; the
    genotype is still the answer of the genotyper, whatever it is. *)
Theorem analyze_breakpoint_filter (stats : LocusStats) (machine : Machine) :
  let this := analyzer machine in
  let breakpoints := getStats (alignmentStatsCalculator_ this) in
  ¬ insufficientData stats this →
  numReadsSpanningLeftBreakpoint breakpoints < breakpointThreshold stats this
  ∨ numReadsSpanningRightBreakpoint breakpoints < breakpointThreshold stats this →
  let findings := result (analyze stats) machine in
  findings_genotypeFilter findings = kLowDepth
  ∧ hasFlag (findings_genotypeFilter findings) kLowDepth
  ∧ ∃ repeatGenotyper candidateAlleleSizes,
      findings_repeatGenotype findings
      = genotypeRepeat repeatGenotyper candidateAlleleSizes.
Proof.
  intros this breakpoints Hsufficient Hbelow findings. subst findings.
  unfold analyze. run_method. cbn [analyzer fst]. fold this.
  rewrite (insufficientData_false _ _ Hsufficient).
  rewrite breakpointThreshold_eq. fold breakpoints.
  assert ((numReadsSpanningRightBreakpoint breakpoints
           <? breakpointThreshold stats this)
          || (numReadsSpanningLeftBreakpoint breakpoints
              <? breakpointThreshold stats this) = true) as ->.
  { apply orb_true_iff. destruct Hbelow as [Hleft|Hright].
    - right. by apply Z.ltb_lt.
    - left. by apply Z.ltb_lt. }
  cbn [findings_genotypeFilter findings_repeatGenotype].
  split; [done|]. split; [apply Z.land_diag|]. eauto.
Qed.

(** C7.  With sufficient data and a repeat unit that is not empty,
    [maxNumUnitsInRead] is the ceiling of [meanReadLength / repeatUnitLength]
    and the three tables of the findings, which are also the tables given
    to the genotyper, are the accumulated tables collapsed at
    [maxNumUnitsInRead].  A collapsed table has no bucket above the cutoff,
    its buckets below the cutoff are those of the table, and its bucket at
    the cutoff also holds the counts of all buckets above it: collapsing
    [{3:2, 12:1, 15:4}] at 12 gives [{3:2, 12:5}]. *)
Theorem analyze_collapses_tables (stats : LocusStats) (machine : Machine) :
  let this := analyzer machine in
  let repeatUnitLength := Z.of_nat (String.length (repeatUnit_ this)) in
  ¬ insufficientData stats this →
  0 < repeatUnitLength →
  let findings := result (analyze stats) machine in
  (∃ maxNumUnitsInRead repeatGenotyper,
     (maxNumUnitsInRead - 1) * repeatUnitLength < meanReadLength stats
     ∧ meanReadLength stats ≤ maxNumUnitsInRead * repeatUnitLength
     ∧ findings_spanningTable findings
       = collapseTopElements (countsOfSpanningReads_ this) maxNumUnitsInRead
     ∧ findings_flankingTable findings
       = collapseTopElements (countsOfFlankingReads_ this) maxNumUnitsInRead
     ∧ findings_inrepeatTable findings
       = collapseTopElements (countsOfInrepeatReads_ this) maxNumUnitsInRead
     ∧ findings_repeatGenotype findings
       = genotypeRepeat repeatGenotyper
           (generateCandidateAlleleSizes (findings_spanningTable findings)
                                         (findings_flankingTable findings)
                                         (findings_inrepeatTable findings))
     ∧ genotyper_maxNumUnitsInRead repeatGenotyper = maxNumUnitsInRead
     ∧ genotyper_repeatUnitLength repeatGenotyper = repeatUnitLength
     ∧ genotyper_spanningTable repeatGenotyper = findings_spanningTable findings
     ∧ genotyper_flankingTable repeatGenotyper = findings_flankingTable findings
     ∧ genotyper_inrepeatTable repeatGenotyper = findings_inrepeatTable findings)
  ∧ (∀ (table : gmap Z Z) (upperBound size : Z),
       (upperBound < size → collapseTopElements table upperBound !! size = None)
       ∧ (upperBound < size → countOf size (collapseTopElements table upperBound) = 0)
       ∧ (size < upperBound →
          countOf size (collapseTopElements table upperBound) = countOf size table)
       ∧ countOf upperBound (collapseTopElements table upperBound)
         = countOf upperBound table + countAbove upperBound table)
  ∧ collapseTopElements {[3 := 2; 12 := 1; 15 := 4]} 12 = {[3 := 2; 12 := 5]}.
Proof.
  intros this repeatUnitLength Hsufficient Hlength findings.
  split; [|split].
  - subst findings. unfold analyze. run_method. cbn [analyzer fst]. fold this.
    rewrite (insufficientData_false _ _ Hsufficient). fold repeatUnitLength.
    destruct (ceilOfQuotient_spec (meanReadLength stats) repeatUnitLength Hlength)
      as [Hlower Hupper].
    eexists (ceilOfQuotient (meanReadLength stats) repeatUnitLength), _.
    cbn [findings_spanningTable findings_flankingTable findings_inrepeatTable
         findings_repeatGenotype].
    split; [exact Hlower|]. split; [exact Hupper|].
    do 3 (split; [reflexivity|]). split; [reflexivity|].
    by cbn.
  - intros table upperBound size. split; [|split; [|split]].
    + apply collapseTopElements_lookup_above.
    + intros Habove. rewrite collapseTopElements_countOf.
      rewrite decide_False by lia. by rewrite decide_False by lia.
    + intros Hbelow. rewrite collapseTopElements_countOf.
      by rewrite decide_True by lia.
    + rewrite collapseTopElements_countOf.
      rewrite decide_False by lia. by rewrite decide_True.
  - by vm_compute.
Qed.

End SufficientData.

(** * Accumulation of evidence *)

Section Accumulation.
Context `{Collaborators}.
Implicit Types (machine : Machine) (this : RepeatAnalyzer)
               (alignment : GraphAlignment) (mates : MatePair).

Lemma repeatNodeId_counted stats this :
  repeatNodeId (counted stats this) = repeatNodeId this.
Proof. unfold counted. by destruct (canonicalAlignmentType stats). Qed.

Lemma repeatNodeId_contribute alignment this :
  repeatNodeId (contribute alignment this) = repeatNodeId this.
Proof.
  unfold contribute. destruct (isConfident _ _); [|done].
  by rewrite repeatNodeId_counted.
Qed.

Lemma summarizeAlignmentsToReadCounts_execute stats machine :
  analyzer (execute (summarizeAlignmentsToReadCounts stats) machine)
  = counted stats (analyzer machine).
Proof.
  unfold summarizeAlignmentsToReadCounts, counted.
  by destruct (canonicalAlignmentType stats); run_method.
Qed.

Lemma processMates_execute read readAlignment mate mateAlignment machine :
  analyzer (execute (processMates read readAlignment mate mateAlignment) machine)
  = contribute mateAlignment (contribute readAlignment (analyzer machine)).
Proof.
  unfold contribute at 1. rewrite repeatNodeId_contribute.
  unfold contribute, isConfident, statsOf.
  unfold processMates, classifyReadAlignment. run_method. cbn [analyzer fst snd].
  destruct (checkIfAlignmentIsConfident _ readAlignment _).1,
           (checkIfAlignmentIsConfident _ mateAlignment _).1.
  all: unfold summarizeAlignmentsToReadCounts, counted;
       cbn [canonicalAlignmentType numRepeatUnitsSpanned];
       destruct (Classify readAlignment), (Classify mateAlignment);
       run_method; reflexivity.
Qed.

Lemma contribute_spanning alignment this size :
  countOf size (countsOfSpanningReads_ (contribute alignment this))
  = countOf size (countsOfSpanningReads_ this)
    + evidenceOf (repeatNodeId this) kSpansRepeat size alignment.
Proof.
  unfold_contribute. rewrite countOf_incrementCountOf.
  by case_decide; repeat case_bool_decide.
Qed.

Lemma contribute_flanking alignment this size :
  countOf size (countsOfFlankingReads_ (contribute alignment this))
  = countOf size (countsOfFlankingReads_ this)
    + evidenceOf (repeatNodeId this) kFlanksRepeat size alignment.
Proof.
  unfold_contribute. rewrite countOf_incrementCountOf.
  by case_decide; repeat case_bool_decide.
Qed.

Lemma contribute_inrepeat alignment this size :
  countOf size (countsOfInrepeatReads_ (contribute alignment this))
  = countOf size (countsOfInrepeatReads_ this)
    + evidenceOf (repeatNodeId this) kInsideRepeat size alignment.
Proof.
  unfold_contribute. rewrite countOf_incrementCountOf.
  by case_decide; repeat case_bool_decide.
Qed.

Lemma contribute_calculator alignment this :
  alignmentStatsCalculator_ (contribute alignment this)
  = fedWith (repeatNodeId this) alignment (alignmentStatsCalculator_ this).
Proof. unfold_contribute. Qed.

Lemma contribute_countOfInrepeatReadPairs alignment this :
  countOfInrepeatReadPairs_ (contribute alignment this)
  = countOfInrepeatReadPairs_ this.
Proof.
  unfold contribute. destruct (isConfident _ _); [|done].
  unfold counted. by destruct (canonicalAlignmentType _).
Qed.

Lemma contribute_unconfident alignment this :
  isConfident (repeatNodeId this) alignment = false →
  contribute alignment this = this.
Proof. unfold contribute. by intros ->. Qed.

(** C5.  [processMates] treats the two alignments one after the other and
    each on its own.  A confident alignment adds one observation to the
    bucket [numRepeatUnitsSpanned] of the spanning, flanking or in-repeat
    table according to its type, to no table when its type is another one,
    and is inspected by the breakpoint statistics; an alignment that is not
    confident changes no member of the analyzer.  No other bucket and no
    other member changes. *)
Theorem processMates_accumulates
    (read : Read) (readAlignment : GraphAlignment)
    (mate : Read) (mateAlignment : GraphAlignment) (machine : Machine) :
  let this := analyzer machine in
  let node := repeatNodeId this in
  let this' :=
    analyzer (execute (processMates read readAlignment mate mateAlignment) machine) in
  (∀ size,
     countOf size (countsOfSpanningReads_ this')
     = countOf size (countsOfSpanningReads_ this)
       + evidenceOf node kSpansRepeat size readAlignment
       + evidenceOf node kSpansRepeat size mateAlignment)
  ∧ (∀ size,
       countOf size (countsOfFlankingReads_ this')
       = countOf size (countsOfFlankingReads_ this)
         + evidenceOf node kFlanksRepeat size readAlignment
         + evidenceOf node kFlanksRepeat size mateAlignment)
  ∧ (∀ size,
       countOf size (countsOfInrepeatReads_ this')
       = countOf size (countsOfInrepeatReads_ this)
         + evidenceOf node kInsideRepeat size readAlignment
         + evidenceOf node kInsideRepeat size mateAlignment)
  ∧ alignmentStatsCalculator_ this'
    = fedWith node mateAlignment
        (fedWith node readAlignment (alignmentStatsCalculator_ this))
  ∧ countOfInrepeatReadPairs_ this' = countOfInrepeatReadPairs_ this
  ∧ (isConfident node readAlignment = false →
     this' = contribute mateAlignment this)
  ∧ (isConfident node mateAlignment = false →
     this' = contribute readAlignment this)
  ∧ (isConfident node readAlignment = false →
     isConfident node mateAlignment = false → this' = this).
Proof.
  intros this node this'. subst this'. rewrite processMates_execute.
  fold this. subst node.
  repeat split.
  - intros size. rewrite contribute_spanning, repeatNodeId_contribute.
    by rewrite contribute_spanning.
  - intros size. rewrite contribute_flanking, repeatNodeId_contribute.
    by rewrite contribute_flanking.
  - intros size. rewrite contribute_inrepeat, repeatNodeId_contribute.
    by rewrite contribute_inrepeat.
  - rewrite contribute_calculator, repeatNodeId_contribute.
    by rewrite contribute_calculator.
  - by rewrite !contribute_countOfInrepeatReadPairs.
  - intros Hread. by rewrite (contribute_unconfident readAlignment).
  - intros Hmate. rewrite (contribute_unconfident mateAlignment); [done|].
    by rewrite repeatNodeId_contribute.
  - intros Hread Hmate.
    rewrite (contribute_unconfident readAlignment) by done.
    by rewrite contribute_unconfident.
Qed.

(** ** Sequences of read pairs *)

Lemma execute_bind {A B} (first : Method A) (next : A → Method B) machine :
  execute (first ≫= next) machine
  = execute (next (result first machine)) (execute first machine).
Proof. run_method. by destruct (first machine). Qed.

Lemma processMatesOf_execute mates machine :
  analyzer (execute (processMatesOf mates) machine)
  = contributeMates mates (analyzer machine).
Proof. unfold processMatesOf. apply processMates_execute. Qed.

Lemma forEachPair_processMatesOf_execute (pairs : list MatePair) machine :
  analyzer (execute (forEachPair processMatesOf pairs) machine)
  = foldl (λ this mates, contributeMates mates this) (analyzer machine) pairs.
Proof.
  revert machine. induction pairs as [|mates pairs IH]; intros machine.
  - done.
  - cbn [forEachPair foldl]. rewrite execute_bind, IH.
    by rewrite processMatesOf_execute.
Qed.

Lemma inspect_comm alignment alignment' calculator :
  inspect alignment (inspect alignment' calculator)
  = inspect alignment' (inspect alignment calculator).
Proof. unfold inspect. cbn. f_equal; lia. Qed.

Lemma contribute_comm alignment alignment' this :
  contribute alignment (contribute alignment' this)
  = contribute alignment' (contribute alignment this).
Proof.
  assert (Hnode : ∀ candidate this',
             repeatNodeId this' = repeatNodeId this →
             contribute candidate this'
             = if isConfident (repeatNodeId this) candidate
               then counted (statsOf (repeatNodeId this) candidate)
                      (with_alignmentStatsCalculator (inspect candidate) this')
               else this').
  { intros candidate this' Hsame. unfold contribute. by rewrite Hsame. }
  rewrite (Hnode alignment (contribute alignment' this))
    by apply repeatNodeId_contribute.
  rewrite (Hnode alignment' (contribute alignment this))
    by apply repeatNodeId_contribute.
  rewrite (Hnode alignment this), (Hnode alignment' this) by done.
  destruct (isConfident _ alignment), (isConfident _ alignment'); try done.
  unfold counted, statsOf.
  cbn [canonicalAlignmentType numRepeatUnitsSpanned].
  destruct (Classify alignment), (Classify alignment');
    unfold with_countsOfSpanningReads, with_countsOfFlankingReads,
           with_countsOfInrepeatReads, with_alignmentStatsCalculator; cbn;
    f_equal; auto using inspect_comm, incrementCountOf_comm.
Qed.

Lemma contributeMates_comm mates mates' this :
  contributeMates mates (contributeMates mates' this)
  = contributeMates mates' (contributeMates mates this).
Proof.
  unfold contributeMates.
  rewrite (contribute_comm (pair_readAlignment mates) (pair_mateAlignment mates')).
  rewrite (contribute_comm (pair_readAlignment mates) (pair_readAlignment mates')).
  rewrite (contribute_comm (pair_mateAlignment mates) (pair_mateAlignment mates')).
  by rewrite (contribute_comm (pair_mateAlignment mates) (pair_readAlignment mates')).
Qed.

Lemma foldl_contributeMates_Permutation (pairs pairs' : list MatePair) :
  pairs ≡ₚ pairs' →
  ∀ this, foldl (λ this mates, contributeMates mates this) this pairs
          = foldl (λ this mates, contributeMates mates this) this pairs'.
Proof.
  induction 1 as [|mates pairs pairs' _ IH|mates mates' pairs
                  |pairs pairs' pairs'' _ IH _ IH']; intros this; cbn [foldl].
  - done.
  - apply IH.
  - by rewrite contributeMates_comm.
  - by rewrite IH.
Qed.

Lemma analyze_result_analyzer stats machine machine' :
  analyzer machine = analyzer machine' →
  result (analyze stats) machine = result (analyze stats) machine'.
Proof.
  intros Hsame. unfold analyze. run_method. cbn [analyzer fst].
  rewrite Hsame. by destruct (_ || _).
Qed.

(** C9.  The members of the analyzer after [processMates] has been applied
    to all pairs of a collection are the same for every order of
    submission, and so are the findings of [analyze] afterwards. *)
Theorem processMates_order_invariant
    (pairs pairs' : list MatePair) (machine : Machine) :
  pairs ≡ₚ pairs' →
  analyzer (execute (forEachPair processMatesOf pairs) machine)
  = analyzer (execute (forEachPair processMatesOf pairs') machine)
  ∧ ∀ stats,
      result (analyze stats) (execute (forEachPair processMatesOf pairs) machine)
      = result (analyze stats) (execute (forEachPair processMatesOf pairs') machine).
Proof.
  intros Hpermutation.
  assert (Hsame : analyzer (execute (forEachPair processMatesOf pairs) machine)
                  = analyzer (execute (forEachPair processMatesOf pairs') machine)).
  { rewrite !forEachPair_processMatesOf_execute.
    by apply foldl_contributeMates_Permutation. }
  split; [done|]. intros stats. by apply analyze_result_analyzer.
Qed.

(** ** The counter of in-repeat read pairs *)

Lemma contributeMates_countOfInrepeatReadPairs mates this :
  countOfInrepeatReadPairs_ (contributeMates mates this)
  = countOfInrepeatReadPairs_ this.
Proof.
  unfold contributeMates. by rewrite !contribute_countOfInrepeatReadPairs.
Qed.

Lemma processReadPair_execute mates machine :
  countOfInrepeatReadPairs_ (analyzer (execute (processReadPair mates) machine))
  = countOfInrepeatReadPairs_ (analyzer machine)
    + (if bothMatesInside mates then 1 else 0).
Proof.
  unfold processReadPair. rewrite execute_bind.
  pose proof (processMatesOf_execute mates machine) as Hmates.
  destruct (execute (processMatesOf mates) machine) as [this' console'].
  cbn [analyzer] in Hmates. subst this'.
  unfold classifyReadAlignment, bothMatesInside. run_method.
  cbn [analyzer fst snd canonicalAlignmentType].
  destruct (_ && _); cbn;
    rewrite contributeMates_countOfInrepeatReadPairs; lia.
Qed.

Lemma forEachPair_processReadPair_execute (pairs : list MatePair) machine :
  countOfInrepeatReadPairs_
    (analyzer (execute (forEachPair processReadPair pairs) machine))
  = countOfInrepeatReadPairs_ (analyzer machine)
    + Z.of_nat (length (filter (λ mates, bothMatesInside mates) pairs)).
Proof.
  revert machine. induction pairs as [|mates pairs IH]; intros machine.
  - cbn. lia.
  - cbn [forEachPair]. rewrite execute_bind, IH, processReadPair_execute.
    rewrite filter_cons. case_decide as Hinside;
      destruct (bothMatesInside mates); try done; cbn [length]; lia.
Qed.

Lemma analyze_passes_countOfInrepeatReadPairs stats machine :
  ¬ insufficientData stats (analyzer machine) →
  ∃ repeatGenotyper candidateAlleleSizes,
    findings_repeatGenotype (result (analyze stats) machine)
    = genotypeRepeat repeatGenotyper candidateAlleleSizes
    ∧ genotyper_countOfInrepeatReadPairs repeatGenotyper
      = countOfInrepeatReadPairs_ (analyzer machine).
Proof.
  intros Hsufficient. unfold analyze. run_method. cbn [analyzer fst].
  rewrite (insufficientData_false _ _ Hsufficient).
  cbn [findings_repeatGenotype]. eexists _, _. split; [reflexivity|done].
Qed.

(** C6.  With the caller of the specification, the counter
    [countOfInrepeatReadPairs_] grows by one for every processed pair whose
    two mates are both classified as in-repeat and by nothing for any other
    pair ([processMates] itself leaves it alone), so that after all pairs of
    a locus it has grown by the number of such pairs; [analyze] hands the
    counter to the genotyper. *)
Theorem countOfInrepeatReadPairs_counts_pairs
    (pairs : list MatePair) (machine : Machine) (stats : LocusStats) :
  let machine' := execute (forEachPair processReadPair pairs) machine in
  countOfInrepeatReadPairs_ (analyzer machine')
  = countOfInrepeatReadPairs_ (analyzer machine)
    + Z.of_nat (length (filter (λ mates, bothMatesInside mates) pairs))
  ∧ (∀ mates current,
       countOfInrepeatReadPairs_ (analyzer (execute (processReadPair mates) current))
       = countOfInrepeatReadPairs_ (analyzer current)
         + (if bothMatesInside mates then 1 else 0))
  ∧ (∀ mates current,
       countOfInrepeatReadPairs_ (analyzer (execute (processMatesOf mates) current))
       = countOfInrepeatReadPairs_ (analyzer current))
  ∧ (¬ insufficientData stats (analyzer machine') →
     ∃ repeatGenotyper candidateAlleleSizes,
       findings_repeatGenotype (result (analyze stats) machine')
       = genotypeRepeat repeatGenotyper candidateAlleleSizes
       ∧ genotyper_countOfInrepeatReadPairs repeatGenotyper
         = countOfInrepeatReadPairs_ (analyzer machine')).
Proof.
  intros machine'. subst machine'. split; [|split; [|split]].
  - apply forEachPair_processReadPair_execute.
  - intros mates current. apply processReadPair_execute.
  - intros mates current. rewrite processMatesOf_execute.
    apply contributeMates_countOfInrepeatReadPairs.
  - apply analyze_passes_countOfInrepeatReadPairs.
Qed.

End Accumulation.

(** * The analyzer on concrete reads *)

Section Samples.
Lemma diploidStats_sufficient (this : RepeatAnalyzer) :
  minLocusCoverage (genotyperParams_ this) = 10%float →
  ¬ @insufficientData diploidStats this.
Proof.
  intros Hcoverage [Hlength|Hdepth]; [discriminate Hlength|].
  rewrite Hcoverage in Hdepth. vm_compute in Hdepth. discriminate Hdepth.
Qed.

(** One pair, a spanning read of 7 units and a flanking read of 3 units:
    each lands in its table and both are inspected. *)
Example processMates_sample :
  let this' :=
    analyzer (execute (@processMatesOf sampleCollaborators
                         (sampleMates (spanningAlignment 7) (flankingAlignment 3)))
                      sampleMachine) in
  countsOfSpanningReads_ this' = {[7 := 1]}
  ∧ countsOfFlankingReads_ this' = {[3 := 1]}
  ∧ countsOfInrepeatReads_ this' = ∅
  ∧ alignmentStatsCalculator_ this'
    = {| numReadsSpanningLeftBreakpoint := 2;
         numReadsSpanningRightBreakpoint := 1 |}.
Proof. by vm_compute. Qed.

(** A pair whose first mate fails the generic filter: only the second mate
    is counted, and the log records one debug and one trace message. *)
Example processMates_rejected_sample :
  let machine' :=
    execute (@processMatesOf sampleCollaborators
               (sampleMates (rejectedAlignment 7) (inrepeatAlignment 12)))
            sampleMachine in
  countsOfSpanningReads_ (analyzer machine') = ∅
  ∧ countsOfInrepeatReads_ (analyzer machine') = {[12 := 1]}
  ∧ level <$> console machine' = [debug; trace].
Proof. by vm_compute. Qed.

(** Reads of 35 bases on the unit CAG hold at most 12 units: the bucket at
    15 is merged into 12, the candidates are 3 and 12, and the left
    breakpoint, seen twice, is below the threshold 5. *)
Example analyze_sample :
  let findings := @result _ (@analyze sampleCollaborators diploidStats) loadedMachine in
  findings_spanningTable findings = {[3 := 2; 12 := 4]}
  ∧ findings_flankingTable findings = {[9 := 1]}
  ∧ findings_inrepeatTable findings = ∅
  ∧ findings_repeatGenotype findings = Some [3; 12]
  ∧ findings_genotypeFilter findings = 1.
Proof. by vm_compute. Qed.

(** A locus whose only evidence is a flanking read that covers no whole
    unit: the genotyper is given no candidate size. *)
Example analyze_flanking_zero_sample :
  let machine' :=
    execute (@processMatesOf sampleCollaborators
               (sampleMates (flankingAlignment 0) (rejectedAlignment 0)))
            sampleMachine in
  countsOfFlankingReads_ (analyzer machine') = {[0 := 1]}
  ∧ findings_repeatGenotype
      (@result _ (@analyze sampleCollaborators diploidStats) machine')
    = Some [].
Proof. by vm_compute. Qed.

Lemma analyze_insufficient_data_witness :
  let findings := @result _ (@analyze sampleCollaborators unreadStats) loadedMachine in
  (meanReadLength unreadStats = 0
   ∨ (depth unreadStats
      <? minLocusCoverage (genotyperParams_ (analyzer loadedMachine)))%float = true)
  ∧ findings_genotypeFilter findings = 1
  ∧ findings_repeatGenotype findings = None
  ∧ findings_spanningTable findings = {[3 := 2; 15 := 4]}.
Proof.
  intros findings. split; [left; reflexivity|].
  destruct (@analyze_insufficient_data sampleCollaborators unreadStats loadedMachine
              (or_introl eq_refl))
    as (Hfilter & _ & Hgenotype & Hspanning & _).
  split; [exact Hfilter|]. split; [exact Hgenotype|]. exact Hspanning.
Defined.

Lemma analyze_breakpoint_filter_witness :
  let findings := @result _ (@analyze sampleCollaborators diploidStats) loadedMachine in
  ¬ @insufficientData diploidStats loadedAnalyzer
  ∧ 2 < @breakpointThreshold diploidStats loadedAnalyzer
  ∧ findings_genotypeFilter findings = 1
  ∧ findings_repeatGenotype findings = Some [3; 12].
Proof.
  intros findings.
  assert (Hsufficient : ¬ @insufficientData diploidStats loadedAnalyzer)
    by (apply diploidStats_sufficient; reflexivity).
  assert (Hbelow : 2 < @breakpointThreshold diploidStats loadedAnalyzer)
    by (vm_compute; reflexivity).
  split; [exact Hsufficient|]. split; [exact Hbelow|].
  destruct (@analyze_breakpoint_filter sampleCollaborators diploidStats loadedMachine
              Hsufficient (or_introl Hbelow)) as (Hfilter & _ & _).
  split; [exact Hfilter|]. vm_compute. reflexivity.
Defined.

Lemma analyze_collapses_tables_witness :
  let findings := @result _ (@analyze sampleCollaborators diploidStats) loadedMachine in
  ¬ @insufficientData diploidStats loadedAnalyzer
  ∧ 0 < Z.of_nat (String.length (repeatUnit_ loadedAnalyzer))
  ∧ ∃ maxNumUnitsInRead,
      (maxNumUnitsInRead - 1) * 3 < 35 ∧ 35 ≤ maxNumUnitsInRead * 3
      ∧ findings_spanningTable findings
        = collapseTopElements {[3 := 2; 15 := 4]} maxNumUnitsInRead.
Proof.
  intros findings.
  assert (Hsufficient : ¬ @insufficientData diploidStats loadedAnalyzer)
    by (apply diploidStats_sufficient; reflexivity).
  assert (Hlength : 0 < Z.of_nat (String.length (repeatUnit_ loadedAnalyzer)))
    by (vm_compute; reflexivity).
  split; [exact Hsufficient|]. split; [exact Hlength|].
  destruct (@analyze_collapses_tables sampleCollaborators diploidStats loadedMachine
              Hsufficient Hlength)
    as [(maxNumUnitsInRead & _ & Hlower & Hupper & Hspanning & _) _].
  exists maxNumUnitsInRead.
  split; [exact Hlower|]. split; [exact Hupper|]. exact Hspanning.
Defined.

Lemma processMates_accumulates_witness :
  let this' :=
    analyzer (execute (@processMates sampleCollaborators (sampleRead "read/1") (rejectedAlignment 7)
                                     (sampleRead "read/2") (spanningAlignment 7))
                      sampleMachine) in
  @isConfident sampleCollaborators 1%N (rejectedAlignment 7) = false
  ∧ this' = @contribute sampleCollaborators (spanningAlignment 7) sampleAnalyzer
  ∧ countOf 7 (countsOfSpanningReads_ this') = 1.
Proof.
  intros this'.
  assert (Hrejected : @isConfident sampleCollaborators 1%N (rejectedAlignment 7) = false)
    by reflexivity.
  split; [exact Hrejected|].
  destruct (@processMates_accumulates sampleCollaborators (sampleRead "read/1") (rejectedAlignment 7)
              (sampleRead "read/2") (spanningAlignment 7) sampleMachine)
    as (Hspanning & _ & _ & _ & _ & Hread & _).
  split; [exact (Hread Hrejected)|].
  unfold this'. rewrite (Hspanning 7). reflexivity.
Defined.

Lemma processMates_order_invariant_witness :
  let first := sampleMates (spanningAlignment 7) (flankingAlignment 3) in
  let second := sampleMates (inrepeatAlignment 12) (spanningAlignment 7) in
  [first; second] ≡ₚ [second; first]
  ∧ analyzer (execute (forEachPair (@processMatesOf sampleCollaborators) [first; second])
                      sampleMachine)
    = analyzer (execute (forEachPair (@processMatesOf sampleCollaborators) [second; first])
                        sampleMachine).
Proof.
  intros first second.
  assert (Hswap : [first; second] ≡ₚ [second; first]) by apply perm_swap.
  split; [exact Hswap|].
  exact (proj1 (@processMates_order_invariant sampleCollaborators _ _ sampleMachine Hswap)).
Defined.

Lemma countOfInrepeatReadPairs_counts_pairs_witness :
  let pairs := [sampleMates (inrepeatAlignment 12) (inrepeatAlignment 11);
                sampleMates (spanningAlignment 7) (inrepeatAlignment 12);
                sampleMates (inrepeatAlignment 12) (inrepeatAlignment 12)] in
  let machine' := execute (forEachPair (@processReadPair sampleCollaborators) pairs) sampleMachine in
  ¬ @insufficientData diploidStats (analyzer machine')
  ∧ countOfInrepeatReadPairs_ (analyzer machine') = 2
  ∧ ∃ repeatGenotyper candidateAlleleSizes,
      findings_repeatGenotype (@result _ (@analyze sampleCollaborators diploidStats) machine')
      = @genotypeRepeat sampleCollaborators repeatGenotyper candidateAlleleSizes
      ∧ genotyper_countOfInrepeatReadPairs repeatGenotyper = 2.
Proof.
  intros pairs machine'.
  assert (Hsufficient : ¬ @insufficientData diploidStats (analyzer machine'))
    by (apply diploidStats_sufficient; reflexivity).
  split; [exact Hsufficient|].
  destruct (@countOfInrepeatReadPairs_counts_pairs sampleCollaborators pairs sampleMachine
              diploidStats) as (Hcount & _ & _ & Hpassed).
  split; [exact Hcount|].
  destruct (Hpassed Hsufficient) as (repeatGenotyper & candidates & Hcall & Hfield).
  exists repeatGenotyper, candidates. split; [exact Hcall|].
  rewrite Hfield. exact Hcount.
Defined.

End Samples.

(** * Further properties of the candidate sizes *)

Section CandidateSizesMore.
Implicit Types (spanningTable flankingTable inrepeatTable : gmap Z Z).

Lemma is_longest_ge table longest size :
  is_longest table longest → supported table size → size ≤ longest.
Proof.
  intros [[Hnone _]|[_ Hmax]] Hsize; [by destruct (Hnone size)|by apply Hmax].
Qed.

Lemma is_longest_positive_supported table longest :
  is_longest table longest → longest ≠ 0 → supported table longest.
Proof. by intros [[_ ->]|[Hsup _]] Hnonzero. Qed.

Lemma elem_of_generateCandidateAlleleSizes
    spanningTable flankingTable inrepeatTable
    longestSpanning longestFlanking longestInrepeat :
  is_longest spanningTable longestSpanning →
  is_longest flankingTable longestFlanking →
  is_longest inrepeatTable longestInrepeat →
  ∀ candidate,
    candidate ∈ generateCandidateAlleleSizes spanningTable flankingTable inrepeatTable
    ↔ supported spanningTable candidate
      ∨ (longestSpanning < Z.max longestFlanking longestInrepeat
         ∧ candidate = Z.max longestFlanking longestInrepeat).
Proof.
  intros Hspanning Hflanking Hinrepeat candidate.
  rewrite (generateCandidateAlleleSizes_unfold _ _ _ _ _ _
             Hspanning Hflanking Hinrepeat).
  rewrite elem_of_app, elem_of_getElementsWithNonzeroCounts.
  case_bool_decide as Hlt.
  - rewrite list_elem_of_singleton. tauto.
  - rewrite elem_of_nil. tauto.
Qed.

(** X1.  No positive observation is longer than every candidate: a positive
    size supported by one of the three tables is a candidate or lies below
    one. *)
Theorem generateCandidateAlleleSizes_covers
    spanningTable flankingTable inrepeatTable (size : Z) :
  0 < size →
  supported spanningTable size ∨ supported flankingTable size
  ∨ supported inrepeatTable size →
  ∃ candidate,
    candidate ∈ generateCandidateAlleleSizes spanningTable flankingTable inrepeatTable
    ∧ size ≤ candidate.
Proof.
  intros Hpositive Hobserved.
  pose proof (longestOf_is_longest spanningTable) as Hspanning.
  pose proof (longestOf_is_longest flankingTable) as Hflanking.
  pose proof (longestOf_is_longest inrepeatTable) as Hinrepeat.
  revert Hspanning Hflanking Hinrepeat.
  generalize (longestOf (getElementsWithNonzeroCounts spanningTable)),
             (longestOf (getElementsWithNonzeroCounts flankingTable)),
             (longestOf (getElementsWithNonzeroCounts inrepeatTable)).
  intros longestSpanning longestFlanking longestInrepeat
         Hspanning Hflanking Hinrepeat.
  pose proof (elem_of_generateCandidateAlleleSizes _ _ _ _ _ _
                Hspanning Hflanking Hinrepeat) as Hcandidate.
  destruct Hobserved as [Hsize|Hnonspanning].
  { exists size. split; [|lia]. apply Hcandidate. by left. }
  assert (size ≤ Z.max longestFlanking longestInrepeat) as Hbelow.
  { destruct Hnonspanning as [Hsize|Hsize].
    - pose proof (is_longest_ge _ _ _ Hflanking Hsize). lia.
    - pose proof (is_longest_ge _ _ _ Hinrepeat Hsize). lia. }
  destruct (decide (longestSpanning < Z.max longestFlanking longestInrepeat))
    as [Hlt|Hge].
  - exists (Z.max longestFlanking longestInrepeat). split; [|done].
    apply Hcandidate. by right.
  - exists longestSpanning. split; [|lia].
    apply Hcandidate. left.
    apply (is_longest_positive_supported _ _ Hspanning). lia.
Qed.

Lemma generateCandidateAlleleSizes_covers_witness :
  0 < 8
  ∧ (supported {[5 := 2]} 8 ∨ supported {[8 := 1]} 8 ∨ supported ∅ 8)
  ∧ ∃ candidate,
      candidate ∈ generateCandidateAlleleSizes {[5 := 2]} {[8 := 1]} ∅
      ∧ 8 ≤ candidate.
Proof.
  assert (Hpositive : 0 < 8) by lia.
  assert (Hobserved : supported {[5 := 2]} 8 ∨ supported {[8 := 1]} 8
                      ∨ supported ∅ 8).
  { right. left. vm_compute. discriminate. }
  split; [exact Hpositive|]. split; [exact Hobserved|].
  exact (generateCandidateAlleleSizes_covers {[5 := 2]} {[8 := 1]} ∅ 8
           Hpositive Hobserved).
Defined.

(** X2.  When no negative size has spanning support, every candidate is an
    observed size: it is supported by one of the three tables. *)
Theorem generateCandidateAlleleSizes_observed
    spanningTable flankingTable inrepeatTable (candidate : Z) :
  (∀ size, supported spanningTable size → 0 ≤ size) →
  candidate ∈ generateCandidateAlleleSizes spanningTable flankingTable inrepeatTable →
  supported spanningTable candidate ∨ supported flankingTable candidate
  ∨ supported inrepeatTable candidate.
Proof.
  intros Hnonnegative Hin.
  pose proof (longestOf_is_longest spanningTable) as Hspanning.
  pose proof (longestOf_is_longest flankingTable) as Hflanking.
  pose proof (longestOf_is_longest inrepeatTable) as Hinrepeat.
  revert Hspanning Hflanking Hinrepeat.
  generalize (longestOf (getElementsWithNonzeroCounts spanningTable)),
             (longestOf (getElementsWithNonzeroCounts flankingTable)),
             (longestOf (getElementsWithNonzeroCounts inrepeatTable)).
  intros longestSpanning longestFlanking longestInrepeat
         Hspanning Hflanking Hinrepeat.
  destruct (proj1 (elem_of_generateCandidateAlleleSizes _ _ _ _ _ _
                     Hspanning Hflanking Hinrepeat candidate) Hin)
    as [Hsize|[Hlt Hextra]]; [by left|right].
  rewrite Hextra.
  assert (0 ≤ longestSpanning).
  { destruct Hspanning as [[_ ->]|[Hsup _]]; [done|by apply Hnonnegative]. }
  destruct (Z.max_spec longestFlanking longestInrepeat)
    as [[_ Hmax]|[_ Hmax]]; rewrite Hmax in *.
  - right. apply (is_longest_positive_supported _ _ Hinrepeat). lia.
  - left. apply (is_longest_positive_supported _ _ Hflanking). lia.
Qed.

Lemma generateCandidateAlleleSizes_observed_witness :
  (∀ size, supported {[5 := 2]} size → 0 ≤ size)
  ∧ 8 ∈ generateCandidateAlleleSizes {[5 := 2]} {[8 := 1]} ∅
  ∧ (supported {[5 := 2]} 8 ∨ supported {[8 := 1]} 8 ∨ supported ∅ 8).
Proof.
  assert (Hnonnegative : ∀ size, supported {[5 := 2]} size → 0 ≤ size).
  { intros size Hsize.
    pose proof (is_longest_ge _ _ _ (longestOf_is_longest {[5 := 2]}) Hsize)
      as Hle.
    destruct (decide (size = 5)) as [->|Hne]; [lia|].
    destruct Hsize. unfold countOf. by rewrite lookup_singleton_ne. }
  assert (Hin : 8 ∈ generateCandidateAlleleSizes {[5 := 2]} {[8 := 1]} ∅).
  { vm_compute. right. left. }
  split; [exact Hnonnegative|]. split; [exact Hin|].
  exact (generateCandidateAlleleSizes_observed {[5 := 2]} {[8 := 1]} ∅ 8
           Hnonnegative Hin).
Defined.

Lemma getElementsWithNonzeroCounts_support (table table' : gmap Z Z) :
  (∀ size, supported table size ↔ supported table' size) →
  getElementsWithNonzeroCounts table = getElementsWithNonzeroCounts table'.
Proof.
  intros Hsame. apply (Sorted_unique Z.le).
  - apply Sorted_getElementsWithNonzeroCounts.
  - apply Sorted_getElementsWithNonzeroCounts.
  - apply NoDup_Permutation; try apply NoDup_getElementsWithNonzeroCounts.
    intros size. by rewrite !elem_of_getElementsWithNonzeroCounts.
Qed.

(** X3.  The candidates depend on the tables only through the sizes they
    support, not through how many reads support a size. *)
Theorem generateCandidateAlleleSizes_support_only
    spanningTable flankingTable inrepeatTable
    (spanningTable' flankingTable' inrepeatTable' : gmap Z Z) :
  (∀ size, supported spanningTable size ↔ supported spanningTable' size) →
  (∀ size, supported flankingTable size ↔ supported flankingTable' size) →
  (∀ size, supported inrepeatTable size ↔ supported inrepeatTable' size) →
  generateCandidateAlleleSizes spanningTable flankingTable inrepeatTable
  = generateCandidateAlleleSizes spanningTable' flankingTable' inrepeatTable'.
Proof.
  intros Hspanning Hflanking Hinrepeat. unfold generateCandidateAlleleSizes.
  rewrite (getElementsWithNonzeroCounts_support _ _ Hspanning).
  rewrite (getElementsWithNonzeroCounts_support _ _ Hflanking).
  by rewrite (getElementsWithNonzeroCounts_support _ _ Hinrepeat).
Qed.

Lemma supported_singleton (element count count' size : Z) :
  count ≠ 0 → count' ≠ 0 →
  supported {[element := count]} size ↔ supported {[element := count']} size.
Proof.
  intros Hcount Hcount'. unfold supported, countOf.
  destruct (decide (element = size)) as [->|Hne].
  - by rewrite !lookup_singleton_eq.
  - by rewrite !lookup_singleton_ne.
Qed.

Lemma generateCandidateAlleleSizes_support_only_witness :
  (∀ size, supported {[5 := 2]} size ↔ supported {[5 := 40]} size)
  ∧ (∀ size, supported {[8 := 1]} size ↔ supported {[8 := 3]} size)
  ∧ (∀ size, supported (∅ : gmap Z Z) size ↔ supported ∅ size)
  ∧ generateCandidateAlleleSizes {[5 := 2]} {[8 := 1]} ∅
    = generateCandidateAlleleSizes {[5 := 40]} {[8 := 3]} ∅.
Proof.
  assert (Hs : ∀ size, supported {[5 := 2]} size ↔ supported {[5 := 40]} size)
    by (intros size; apply supported_singleton; lia).
  assert (Hf : ∀ size, supported {[8 := 1]} size ↔ supported {[8 := 3]} size)
    by (intros size; apply supported_singleton; lia).
  assert (Hi : ∀ size, supported (∅ : gmap Z Z) size ↔ supported ∅ size)
    by (intros size; reflexivity).
  split; [exact Hs|]. split; [exact Hf|]. split; [exact Hi|].
  exact (generateCandidateAlleleSizes_support_only _ _ _ _ _ _ Hs Hf Hi).
Defined.

End CandidateSizesMore.

(** * Further properties of the confidence filter *)

Section ConfidenceFilterMore.
Context `{Collaborators}.

(** X4.  The verdict of [checkIfAlignmentIsConfident] uses the statistics
    only through the canonical type; a confident verdict implies that the
    generic filter passed; and the types are ordered by strictness: an
    alignment confident as a spanning one is confident under every type,
    and one confident as a flanking one is confident under every type but
    the spanning one. *)
Theorem checkIfAlignmentIsConfident_strictness
    (repeatNode : NodeId) (alignment : GraphAlignment)
    (alignmentStats alignmentStats' : RepeatAlignmentStats) :
  let verdict stats := (checkIfAlignmentIsConfident repeatNode alignment stats).1 in
  (verdict alignmentStats = true → checkIfPassesAlignmentFilters alignment = true)
  ∧ (canonicalAlignmentType alignmentStats = canonicalAlignmentType alignmentStats' →
     checkIfAlignmentIsConfident repeatNode alignment alignmentStats
     = checkIfAlignmentIsConfident repeatNode alignment alignmentStats')
  ∧ (canonicalAlignmentType alignmentStats = kSpansRepeat →
     verdict alignmentStats = true → verdict alignmentStats' = true)
  ∧ (canonicalAlignmentType alignmentStats = kFlanksRepeat →
     canonicalAlignmentType alignmentStats' ≠ kSpansRepeat →
     verdict alignmentStats = true → verdict alignmentStats' = true).
Proof.
  intros verdict. subst verdict. cbn beta.
  unfold checkIfAlignmentIsConfident, evaluate.
  unfold mbind, Evaluated_bind, mret, Evaluated_ret.
  split; [|split; [|split]].
  - by destruct (checkIfPassesAlignmentFilters alignment).
  - by intros ->.
  - intros ->.
    destruct (checkIfPassesAlignmentFilters alignment),
             (checkIfUpstreamAlignmentIsGood repeatNode alignment),
             (checkIfDownstreamAlignmentIsGood repeatNode alignment),
             (canonicalAlignmentType alignmentStats'); by cbn.
  - intros -> Hother.
    destruct (checkIfPassesAlignmentFilters alignment),
             (checkIfUpstreamAlignmentIsGood repeatNode alignment),
             (checkIfDownstreamAlignmentIsGood repeatNode alignment),
             (canonicalAlignmentType alignmentStats'); by cbn.
Qed.

End ConfidenceFilterMore.

Lemma checkIfAlignmentIsConfident_strictness_witness :
  let spanning := @statsOf sampleCollaborators 1%N (spanningAlignment 7) in
  let flanking :=
    @Build_RepeatAlignmentStats sampleCollaborators
      (spanningAlignment 7) kFlanksRepeat 7 in
  canonicalAlignmentType spanning = kSpansRepeat
  ∧ (@checkIfAlignmentIsConfident sampleCollaborators 1%N
       (spanningAlignment 7) spanning).1 = true
  ∧ (@checkIfAlignmentIsConfident sampleCollaborators 1%N
       (spanningAlignment 7) flanking).1 = true.
Proof.
  intros spanning flanking.
  assert (Htype : canonicalAlignmentType spanning = kSpansRepeat) by reflexivity.
  assert (Hverdict : (@checkIfAlignmentIsConfident sampleCollaborators 1%N
                        (spanningAlignment 7) spanning).1 = true) by reflexivity.
  split; [exact Htype|]. split; [exact Hverdict|].
  destruct (@checkIfAlignmentIsConfident_strictness sampleCollaborators 1%N
              (spanningAlignment 7) spanning flanking) as (_ & _ & Hstrict & _).
  exact (Hstrict Htype Hverdict).
Defined.

(** * Further properties of the accumulation *)

Section AccumulationMore.
Context `{Collaborators}.
Implicit Types (machine : Machine) (this : RepeatAnalyzer)
               (alignment : GraphAlignment) (mates : MatePair).

Lemma repeatNodeId_contributeMates mates this :
  repeatNodeId (contributeMates mates this) = repeatNodeId this.
Proof. unfold contributeMates. by rewrite !repeatNodeId_contribute. Qed.

Lemma foldl_contributeMates_rel (R : relation RepeatAnalyzer) :
  Reflexive R → Transitive R →
  (∀ mates this, R this (contributeMates mates this)) →
  ∀ (pairs : list MatePair) this,
    R this (foldl (λ this mates, contributeMates mates this) this pairs).
Proof.
  intros Hrefl Htrans Hstep pairs.
  induction pairs as [|mates pairs IH]; intros this; cbn [foldl].
  - reflexivity.
  - etrans; [apply (Hstep mates)|apply IH].
Qed.

Lemma evidenceOf_cases repeatNode type size alignment :
  evidenceOf repeatNode type size alignment = 0
  ∨ (evidenceOf repeatNode type size alignment = 1
     ∧ isConfident repeatNode alignment = true
     ∧ Classify alignment = type
     ∧ countFullOverlaps repeatNode alignment = size).
Proof.
  unfold evidenceOf, statsOf.
  cbn [canonicalAlignmentType numRepeatUnitsSpanned].
  destruct (isConfident repeatNode alignment); [|by left].
  repeat case_bool_decide; cbn; auto.
Qed.

Lemma evidenceOf_exclusive repeatNode size alignment :
  0 ≤ evidenceOf repeatNode kSpansRepeat size alignment
  ∧ 0 ≤ evidenceOf repeatNode kFlanksRepeat size alignment
  ∧ 0 ≤ evidenceOf repeatNode kInsideRepeat size alignment
  ∧ evidenceOf repeatNode kSpansRepeat size alignment
    + evidenceOf repeatNode kFlanksRepeat size alignment
    + evidenceOf repeatNode kInsideRepeat size alignment ≤ 1.
Proof.
  destruct (evidenceOf_cases repeatNode kSpansRepeat size alignment)
    as [Hs|(Hs & _ & Hts & _)];
  destruct (evidenceOf_cases repeatNode kFlanksRepeat size alignment)
    as [Hf|(Hf & _ & Htf & _)];
  destruct (evidenceOf_cases repeatNode kInsideRepeat size alignment)
    as [Hi|(Hi & _ & Hti & _)];
  rewrite Hs, Hf, Hi; try lia; congruence.
Qed.

(** X5.  One call of [processMates] appends exactly two records to the log,
    the first about the read and the second about the mate, and leaves the
    earlier records in place; a record has level [trace] when the alignment
    is confident and [debug] otherwise, and starts with the identifier of
    its read. *)
Theorem processMates_logs
    (read : Read) (readAlignment : GraphAlignment)
    (mate : Read) (mateAlignment : GraphAlignment) machine :
  let node := repeatNodeId (analyzer machine) in
  ∃ readRecord mateRecord,
    console (execute (processMates read readAlignment mate mateAlignment) machine)
    = console machine ++ [readRecord; mateRecord]
    ∧ level readRecord = (if isConfident node readAlignment then trace else debug)
    ∧ level mateRecord = (if isConfident node mateAlignment then trace else debug)
    ∧ head (arguments readRecord) = Some (ArgString (readId read))
    ∧ head (arguments mateRecord) = Some (ArgString (readId mate)).
Proof.
  intros node. subst node. unfold isConfident, statsOf.
  unfold processMates, classifyReadAlignment. run_method. cbn [analyzer fst snd].
  destruct (checkIfAlignmentIsConfident _ readAlignment _).1,
           (checkIfAlignmentIsConfident _ mateAlignment _).1.
  all: unfold summarizeAlignmentsToReadCounts;
       cbn [canonicalAlignmentType numRepeatUnitsSpanned];
       destruct (Classify readAlignment), (Classify mateAlignment);
       run_method; cbn [console snd];
       rewrite <- app_assoc; cbn [app];
       eexists _, _; (split; [reflexivity|]); by cbn.
Qed.

(** X6.  The two mates of a pair are interchangeable: [processMates] leaves
    the members of the analyzer in the same state whichever mate is passed
    first. *)
Theorem processMates_mates_swap
    (read : Read) (readAlignment : GraphAlignment)
    (mate : Read) (mateAlignment : GraphAlignment) machine :
  analyzer (execute (processMates read readAlignment mate mateAlignment) machine)
  = analyzer (execute (processMates mate mateAlignment read readAlignment) machine).
Proof. rewrite !processMates_execute. apply contribute_comm. Qed.

Lemma contributeMates_buckets mates this size :
  countOf size (countsOfSpanningReads_ (contributeMates mates this))
  = countOf size (countsOfSpanningReads_ this)
    + evidenceOf (repeatNodeId this) kSpansRepeat size (pair_readAlignment mates)
    + evidenceOf (repeatNodeId this) kSpansRepeat size (pair_mateAlignment mates)
  ∧ countOf size (countsOfFlankingReads_ (contributeMates mates this))
    = countOf size (countsOfFlankingReads_ this)
      + evidenceOf (repeatNodeId this) kFlanksRepeat size (pair_readAlignment mates)
      + evidenceOf (repeatNodeId this) kFlanksRepeat size (pair_mateAlignment mates)
  ∧ countOf size (countsOfInrepeatReads_ (contributeMates mates this))
    = countOf size (countsOfInrepeatReads_ this)
      + evidenceOf (repeatNodeId this) kInsideRepeat size (pair_readAlignment mates)
      + evidenceOf (repeatNodeId this) kInsideRepeat size (pair_mateAlignment mates).
Proof.
  unfold contributeMates.
  rewrite contribute_spanning, contribute_flanking, contribute_inrepeat.
  rewrite repeatNodeId_contribute.
  by rewrite contribute_spanning, contribute_flanking, contribute_inrepeat.
Qed.

(** X7.  After [processMates] has been applied to a sequence of pairs, every
    bucket of each table holds its earlier count plus the number of
    confident alignments of the sequence that have the type of the table
    and span that many units. *)
Theorem forEachPair_processMatesOf_buckets
    (pairs : list MatePair) machine (size : Z) :
  let this := analyzer machine in
  let node := repeatNodeId this in
  let this' := analyzer (execute (forEachPair processMatesOf pairs) machine) in
  countOf size (countsOfSpanningReads_ this')
  = countOf size (countsOfSpanningReads_ this)
    + evidenceOfAll node kSpansRepeat size pairs
  ∧ countOf size (countsOfFlankingReads_ this')
    = countOf size (countsOfFlankingReads_ this)
      + evidenceOfAll node kFlanksRepeat size pairs
  ∧ countOf size (countsOfInrepeatReads_ this')
    = countOf size (countsOfInrepeatReads_ this)
      + evidenceOfAll node kInsideRepeat size pairs.
Proof.
  intros this node this'. subst this' node.
  rewrite forEachPair_processMatesOf_execute. fold this. clearbody this.
  revert this. induction pairs as [|mates pairs IH]; intros this.
  - cbn. repeat split; lia.
  - cbn [foldl evidenceOfAll foldr].
    destruct (IH (contributeMates mates this)) as (Hs & Hf & Hi).
    rewrite repeatNodeId_contributeMates in Hs, Hf, Hi.
    destruct (contributeMates_buckets mates this size) as (Hs' & Hf' & Hi').
    unfold evidenceOfAll in Hs, Hf, Hi.
    rewrite Hs, Hf, Hi, Hs', Hf', Hi'. repeat split; lia.
Qed.

(** X8.  One call of [processMates] never lowers a bucket, adds at most two
    observations to the three buckets of a size taken together, and changes
    a bucket only at a size that [countFullOverlaps] reports for one of the
    two alignments. *)
Theorem processMates_bucket_change
    (read : Read) (readAlignment : GraphAlignment)
    (mate : Read) (mateAlignment : GraphAlignment) machine (size : Z) :
  let this := analyzer machine in
  let node := repeatNodeId this in
  let this' :=
    analyzer (execute (processMates read readAlignment mate mateAlignment) machine) in
  let spanning :=
    countOf size (countsOfSpanningReads_ this')
    - countOf size (countsOfSpanningReads_ this) in
  let flanking :=
    countOf size (countsOfFlankingReads_ this')
    - countOf size (countsOfFlankingReads_ this) in
  let inrepeat :=
    countOf size (countsOfInrepeatReads_ this')
    - countOf size (countsOfInrepeatReads_ this) in
  0 ≤ spanning ∧ 0 ≤ flanking ∧ 0 ≤ inrepeat
  ∧ spanning + flanking + inrepeat ≤ 2
  ∧ (spanning + flanking + inrepeat ≠ 0 →
     size = countFullOverlaps node readAlignment
     ∨ size = countFullOverlaps node mateAlignment).
Proof.
  intros this node this' spanning flanking inrepeat.
  subst spanning flanking inrepeat this'.
  rewrite processMates_execute. fold this.
  pose proof (contributeMates_buckets
                (Build_MatePair read readAlignment mate mateAlignment) this size)
    as (Hs & Hf & Hi).
  unfold contributeMates in Hs, Hf, Hi.
  cbn [pair_readAlignment pair_mateAlignment] in Hs, Hf, Hi.
  rewrite Hs, Hf, Hi. fold node.
  pose proof (evidenceOf_exclusive node size readAlignment) as (? & ? & ? & ?).
  pose proof (evidenceOf_exclusive node size mateAlignment) as (? & ? & ? & ?).
  split; [lia|]. split; [lia|]. split; [lia|]. split; [lia|].
  intros Hchanged.
  destruct (evidenceOf_cases node kSpansRepeat size readAlignment)
    as [Hrs|(_ & _ & _ & <-)]; [|by left].
  destruct (evidenceOf_cases node kFlanksRepeat size readAlignment)
    as [Hrf|(_ & _ & _ & <-)]; [|by left].
  destruct (evidenceOf_cases node kInsideRepeat size readAlignment)
    as [Hri|(_ & _ & _ & <-)]; [|by left].
  destruct (evidenceOf_cases node kSpansRepeat size mateAlignment)
    as [Hms|(_ & _ & _ & <-)]; [|by right].
  destruct (evidenceOf_cases node kFlanksRepeat size mateAlignment)
    as [Hmf|(_ & _ & _ & <-)]; [|by right].
  destruct (evidenceOf_cases node kInsideRepeat size mateAlignment)
    as [Hmi|(_ & _ & _ & <-)]; [|by right].
  lia.
Qed.

Lemma contribute_configuration alignment this :
  variantId_ (contribute alignment this) = variantId_ this
  ∧ repeatUnit_ (contribute alignment this) = repeatUnit_ this
  ∧ genotyperParams_ (contribute alignment this) = genotyperParams_ this.
Proof.
  unfold contribute. destruct (isConfident _ _); [|done].
  unfold counted. by destruct (canonicalAlignmentType _).
Qed.

(** X9.  [processMates] never writes the configuration of the analyzer:
    after any sequence of pairs the variant identifier, the repeat node,
    the repeat unit and the genotyper parameters, which [analyze] reads,
    are what they were. *)
Theorem forEachPair_processMatesOf_configuration
    (pairs : list MatePair) machine :
  let this := analyzer machine in
  let this' := analyzer (execute (forEachPair processMatesOf pairs) machine) in
  variantId_ this' = variantId_ this
  ∧ repeatNodeId this' = repeatNodeId this
  ∧ repeatUnit_ this' = repeatUnit_ this
  ∧ genotyperParams_ this' = genotyperParams_ this.
Proof.
  intros this this'. subst this'.
  rewrite forEachPair_processMatesOf_execute. fold this.
  apply (foldl_contributeMates_rel
           (λ before after,
              variantId_ after = variantId_ before
              ∧ repeatNodeId after = repeatNodeId before
              ∧ repeatUnit_ after = repeatUnit_ before
              ∧ genotyperParams_ after = genotyperParams_ before)).
  - by intros before.
  - intros first second third (? & ? & ? & ?) (? & ? & ? & ?).
    repeat split; congruence.
  - intros mates before. unfold contributeMates.
    destruct (contribute_configuration (pair_mateAlignment mates)
                (contribute (pair_readAlignment mates) before)) as (-> & -> & ->).
    destruct (contribute_configuration (pair_readAlignment mates) before)
      as (-> & -> & ->).
    by rewrite !repeatNodeId_contribute.
Qed.


(** X11.  Pairs without a confident alignment leave no trace in the
    analyzer: after a sequence of such pairs its members are unchanged. *)
Theorem forEachPair_processMatesOf_unconfident
    (pairs : list MatePair) machine :
  Forall (unconfidentMates (repeatNodeId (analyzer machine))) pairs →
  analyzer (execute (forEachPair processMatesOf pairs) machine) = analyzer machine.
Proof.
  rewrite forEachPair_processMatesOf_execute.
  generalize (analyzer machine). intros this Hunconfident.
  induction Hunconfident as [|mates pairs [Hread Hmate] _ IH]; [done|].
  cbn [foldl]. unfold contributeMates.
  rewrite (contribute_unconfident (pair_readAlignment mates)) by done.
  by rewrite contribute_unconfident.
Qed.

End AccumulationMore.

Lemma processMates_bucket_change_witness :
  let this' :=
    analyzer (execute (@processMates sampleCollaborators
                         (sampleRead "read/1") (spanningAlignment 7)
                         (sampleRead "read/2") (flankingAlignment 3))
                      sampleMachine) in
  countOf 7 (countsOfSpanningReads_ this') - 0
  + (countOf 7 (countsOfFlankingReads_ this') - 0)
  + (countOf 7 (countsOfInrepeatReads_ this') - 0) ≠ 0
  ∧ (7 = @countFullOverlaps sampleCollaborators 1%N (spanningAlignment 7)
     ∨ 7 = @countFullOverlaps sampleCollaborators 1%N (flankingAlignment 3)).
Proof.
  intros this'.
  assert (Hchanged :
            countOf 7 (countsOfSpanningReads_ this') - 0
            + (countOf 7 (countsOfFlankingReads_ this') - 0)
            + (countOf 7 (countsOfInrepeatReads_ this') - 0) ≠ 0)
    by (vm_compute; discriminate).
  split; [exact Hchanged|].
  destruct (@processMates_bucket_change sampleCollaborators
              (sampleRead "read/1") (spanningAlignment 7)
              (sampleRead "read/2") (flankingAlignment 3) sampleMachine 7)
    as (_ & _ & _ & _ & Hsize).
  exact (Hsize Hchanged).
Defined.

Lemma forEachPair_processMatesOf_unconfident_witness :
  let pairs := [sampleMates (rejectedAlignment 7) (rejectedAlignment 9);
                sampleMates (rejectedAlignment 3) (rejectedAlignment 3)] in
  Forall (@unconfidentMates sampleCollaborators 1%N) pairs
  ∧ analyzer (execute (forEachPair (@processMatesOf sampleCollaborators) pairs)
                      sampleMachine)
    = sampleAnalyzer.
Proof.
  intros pairs.
  assert (Hunconfident : Forall (@unconfidentMates sampleCollaborators 1%N) pairs)
    by (repeat constructor).
  split; [exact Hunconfident|].
  exact (@forEachPair_processMatesOf_unconfident sampleCollaborators
           pairs sampleMachine Hunconfident).
Defined.

(** * Further properties of the analysis *)

Section AnalysisMore.
Context `{Collaborators}.

Lemma analyze_sufficient_filter (stats : LocusStats) (machine : Machine) :
  let this := analyzer machine in
  let breakpoints := getStats (alignmentStatsCalculator_ this) in
  ¬ insufficientData stats this →
  findings_genotypeFilter (result (analyze stats) machine)
  = (if (numReadsSpanningRightBreakpoint breakpoints
         <? breakpointThreshold stats this)
        || (numReadsSpanningLeftBreakpoint breakpoints
            <? breakpointThreshold stats this)
     then kLowDepth else GenotypeFilter_none)
  ∧ ∃ repeatGenotyper,
      findings_repeatGenotype (result (analyze stats) machine)
      = genotypeRepeat repeatGenotyper
          (generateCandidateAlleleSizes
             (genotyper_spanningTable repeatGenotyper)
             (genotyper_flankingTable repeatGenotyper)
             (genotyper_inrepeatTable repeatGenotyper))
      ∧ genotyper_maxNumUnitsInRead repeatGenotyper
        = ceilOfQuotient (meanReadLength stats)
                         (Z.of_nat (String.length (repeatUnit_ this)))
      ∧ genotyper_spanningTable repeatGenotyper
        = collapseTopElements (countsOfSpanningReads_ this)
            (genotyper_maxNumUnitsInRead repeatGenotyper)
      ∧ genotyper_flankingTable repeatGenotyper
        = collapseTopElements (countsOfFlankingReads_ this)
            (genotyper_maxNumUnitsInRead repeatGenotyper)
      ∧ genotyper_inrepeatTable repeatGenotyper
        = collapseTopElements (countsOfInrepeatReads_ this)
            (genotyper_maxNumUnitsInRead repeatGenotyper).
Proof.
  intros this breakpoints Hsufficient.
  unfold analyze. run_method. cbn [analyzer fst]. fold this.
  rewrite (insufficientData_false _ _ Hsufficient).
  rewrite breakpointThreshold_eq. fold breakpoints.
  destruct (_ || _);
    cbn [fst findings_genotypeFilter findings_repeatGenotype];
    (split; [done|]);
    match goal with
    | |- ∃ _, genotypeRepeat ?given _ = _ ∧ _ => exists given
    end; by cbn.
Qed.

(** X12.  With sufficient data and both breakpoint counts at or above the
    threshold, [analyze] sets no filter flag and reports the answer of the
    genotyper. *)
Theorem analyze_no_filter (stats : LocusStats) (machine : Machine) :
  let this := analyzer machine in
  let breakpoints := getStats (alignmentStatsCalculator_ this) in
  ¬ insufficientData stats this →
  breakpointThreshold stats this ≤ numReadsSpanningLeftBreakpoint breakpoints →
  breakpointThreshold stats this ≤ numReadsSpanningRightBreakpoint breakpoints →
  let findings := result (analyze stats) machine in
  findings_genotypeFilter findings = GenotypeFilter_none
  ∧ ∃ repeatGenotyper candidateAlleleSizes,
      findings_repeatGenotype findings
      = genotypeRepeat repeatGenotyper candidateAlleleSizes.
Proof.
  intros this breakpoints Hsufficient Hleft Hright findings. subst findings.
  destruct (analyze_sufficient_filter stats machine Hsufficient)
    as (Hfilter & repeatGenotyper & Hgenotype & _).
  fold this breakpoints in Hfilter. split; [|eauto].
  rewrite Hfilter.
  rewrite (proj2 (Z.ltb_ge _ _) Hleft), (proj2 (Z.ltb_ge _ _) Hright). done.
Qed.

(** X13.  On a haploid locus the threshold is halved towards zero, so with
    a configured [minBreakpointSpanningReads] of 0 or 1 the breakpoint
    filter cannot fire on counts that are not negative: with sufficient
    data no flag is set even when no read spans a breakpoint. *)
Theorem analyze_haploid_small_threshold (stats : LocusStats) (machine : Machine) :
  let this := analyzer machine in
  let breakpoints := getStats (alignmentStatsCalculator_ this) in
  ¬ insufficientData stats this →
  alleleCount stats = kOne →
  0 ≤ minBreakpointSpanningReads (genotyperParams_ this) ≤ 1 →
  0 ≤ numReadsSpanningLeftBreakpoint breakpoints →
  0 ≤ numReadsSpanningRightBreakpoint breakpoints →
  findings_genotypeFilter (result (analyze stats) machine) = GenotypeFilter_none.
Proof.
  intros this breakpoints Hsufficient Hhaploid Hconfigured Hleft Hright.
  destruct (analyze_sufficient_filter stats machine Hsufficient) as (Hfilter & _).
  fold this breakpoints in Hfilter. rewrite Hfilter.
  assert (breakpointThreshold stats this = 0) as ->.
  { unfold breakpointThreshold. rewrite Hhaploid.
    assert (minBreakpointSpanningReads (genotyperParams_ this) = 0
            ∨ minBreakpointSpanningReads (genotyperParams_ this) = 1)
      as [->| ->] by lia; done. }
  rewrite (proj2 (Z.ltb_ge _ _) Hleft), (proj2 (Z.ltb_ge _ _) Hright). done.
Qed.

Lemma supported_collapseTopElements_le (table : gmap Z Z) (upperBound size : Z) :
  supported (collapseTopElements table upperBound) size → size ≤ upperBound.
Proof.
  unfold supported. rewrite collapseTopElements_countOf.
  repeat case_decide; lia.
Qed.

Lemma generateCandidateAlleleSizes_collapsed_le
    (spanningTable flankingTable inrepeatTable : gmap Z Z)
    (upperBound candidate : Z) :
  0 ≤ upperBound →
  candidate ∈ generateCandidateAlleleSizes
                (collapseTopElements spanningTable upperBound)
                (collapseTopElements flankingTable upperBound)
                (collapseTopElements inrepeatTable upperBound) →
  candidate ≤ upperBound.
Proof.
  intros Hbound Hin.
  apply (elem_of_generateCandidateAlleleSizes _ _ _ _ _ _
           (longestOf_is_longest _) (longestOf_is_longest _)
           (longestOf_is_longest _)) in Hin.
  destruct Hin as [Hsize|[_ Hextra]].
  - by apply supported_collapseTopElements_le in Hsize.
  - assert (Hlongest : ∀ table longest,
               is_longest (collapseTopElements table upperBound) longest →
               longest ≤ upperBound).
    { intros table longest [[_ ->]|[Hsup _]]; [done|].
      by apply supported_collapseTopElements_le in Hsup. }
    pose proof (Hlongest _ _ (longestOf_is_longest
                                (collapseTopElements flankingTable upperBound))).
    pose proof (Hlongest _ _ (longestOf_is_longest
                                (collapseTopElements inrepeatTable upperBound))).
    lia.
Qed.

(** X14.  With sufficient data, a positive mean read length and a repeat
    unit that is not empty, the cutoff [maxNumUnitsInRead] is at least 1 and
    no candidate allele size given to the genotyper exceeds it. *)
Theorem analyze_candidates_bounded (stats : LocusStats) (machine : Machine) :
  let this := analyzer machine in
  ¬ insufficientData stats this →
  0 < meanReadLength stats →
  0 < Z.of_nat (String.length (repeatUnit_ this)) →
  ∃ repeatGenotyper candidateAlleleSizes,
    findings_repeatGenotype (result (analyze stats) machine)
    = genotypeRepeat repeatGenotyper candidateAlleleSizes
    ∧ 1 ≤ genotyper_maxNumUnitsInRead repeatGenotyper
    ∧ ∀ candidate, candidate ∈ candidateAlleleSizes →
                   candidate ≤ genotyper_maxNumUnitsInRead repeatGenotyper.
Proof.
  intros this Hsufficient Hlength Hunit.
  destruct (analyze_sufficient_filter stats machine Hsufficient)
    as (_ & repeatGenotyper & Hgenotype & Hmax & Hspanning & Hflanking & Hinrepeat).
  fold this in Hmax, Hspanning, Hflanking, Hinrepeat.
  exists repeatGenotyper. eexists. split; [exact Hgenotype|].
  assert (1 ≤ genotyper_maxNumUnitsInRead repeatGenotyper) as Hcutoff.
  { rewrite Hmax.
    destruct (ceilOfQuotient_spec (meanReadLength stats) _ Hunit) as [_ Hupper].
    nia. }
  split; [exact Hcutoff|].
  intros candidate. rewrite Hspanning, Hflanking, Hinrepeat.
  apply generateCandidateAlleleSizes_collapsed_le. lia.
Qed.

End AnalysisMore.

Lemma analyze_no_filter_witness :
  let findings := @result _ (@analyze sampleCollaborators diploidStats) spannedMachine in
  ¬ @insufficientData diploidStats (analyzer spannedMachine)
  ∧ @breakpointThreshold diploidStats (analyzer spannedMachine) ≤ 6
  ∧ findings_genotypeFilter findings = GenotypeFilter_none
  ∧ findings_repeatGenotype findings = Some [7; 9].
Proof.
  intros findings.
  assert (Hsufficient : ¬ @insufficientData diploidStats (analyzer spannedMachine))
    by (apply diploidStats_sufficient; reflexivity).
  assert (Hthreshold : @breakpointThreshold diploidStats (analyzer spannedMachine) ≤ 6)
    by (vm_compute; discriminate).
  split; [exact Hsufficient|]. split; [exact Hthreshold|].
  destruct (@analyze_no_filter sampleCollaborators diploidStats spannedMachine
              Hsufficient Hthreshold Hthreshold) as [Hfilter _].
  split; [exact Hfilter|]. vm_compute. reflexivity.
Defined.

Lemma analyze_haploid_small_threshold_witness :
  ¬ @insufficientData haploidStats (analyzer lenientMachine)
  ∧ alleleCount haploidStats = kOne
  ∧ 0 ≤ minBreakpointSpanningReads (genotyperParams_ (analyzer lenientMachine)) ≤ 1
  ∧ findings_genotypeFilter
      (@result _ (@analyze sampleCollaborators haploidStats) lenientMachine)
    = GenotypeFilter_none.
Proof.
  assert (Hsufficient : ¬ @insufficientData haploidStats (analyzer lenientMachine)).
  { intros [Hlength|Hdepth]; [discriminate Hlength|].
    vm_compute in Hdepth. discriminate Hdepth. }
  assert (Hconfigured :
            0 ≤ minBreakpointSpanningReads (genotyperParams_ (analyzer lenientMachine))
            ≤ 1) by (cbn; lia).
  assert (Hzero : (0 ≤ 0)%Z) by lia.
  split; [exact Hsufficient|]. split; [reflexivity|]. split; [exact Hconfigured|].
  exact (@analyze_haploid_small_threshold sampleCollaborators haploidStats
           lenientMachine Hsufficient eq_refl Hconfigured Hzero Hzero).
Defined.

Lemma analyze_candidates_bounded_witness :
  ¬ @insufficientData diploidStats (analyzer loadedMachine)
  ∧ 0 < meanReadLength diploidStats
  ∧ 0 < Z.of_nat (String.length (repeatUnit_ (analyzer loadedMachine)))
  ∧ ∃ repeatGenotyper candidateAlleleSizes,
      findings_repeatGenotype
        (@result _ (@analyze sampleCollaborators diploidStats) loadedMachine)
      = @genotypeRepeat sampleCollaborators repeatGenotyper candidateAlleleSizes
      ∧ 1 ≤ genotyper_maxNumUnitsInRead repeatGenotyper
      ∧ ∀ candidate, candidate ∈ candidateAlleleSizes →
                     candidate ≤ genotyper_maxNumUnitsInRead repeatGenotyper.
Proof.
  assert (Hsufficient : ¬ @insufficientData diploidStats (analyzer loadedMachine))
    by (apply diploidStats_sufficient; reflexivity).
  assert (Hlength : 0 < meanReadLength diploidStats) by (cbn; lia).
  assert (Hunit : 0 < Z.of_nat (String.length (repeatUnit_ (analyzer loadedMachine))))
    by (vm_compute; reflexivity).
  split; [exact Hsufficient|]. split; [exact Hlength|]. split; [exact Hunit|].
  exact (@analyze_candidates_bounded sampleCollaborators diploidStats loadedMachine
           Hsufficient Hlength Hunit).
Defined.

(** * Loci with little evidence *)

Section LittleEvidence.
Context `{Collaborators}.

(** X15.  Without spanning support the candidates are decided by the longest
    flanking or in-repeat size alone: it is the only candidate when it is
    positive, and there is no candidate otherwise. *)
Theorem generateCandidateAlleleSizes_no_spanning
    (spanningTable flankingTable inrepeatTable : gmap Z Z)
    (longestFlanking longestInrepeat : Z) :
  (∀ size, ¬ supported spanningTable size) →
  is_longest flankingTable longestFlanking →
  is_longest inrepeatTable longestInrepeat →
  generateCandidateAlleleSizes spanningTable flankingTable inrepeatTable
  = if bool_decide (0 < Z.max longestFlanking longestInrepeat)
    then [Z.max longestFlanking longestInrepeat] else [].
Proof.
  intros Hnone Hflanking Hinrepeat.
  assert (Hspanning : is_longest spanningTable 0) by (by left).
  rewrite (generateCandidateAlleleSizes_unfold _ _ _ _ _ _
             Hspanning Hflanking Hinrepeat).
  by rewrite (proj2 (getElementsWithNonzeroCounts_nil _) Hnone).
Qed.

(** X16.  An analyzer that has counted no read still genotypes when the
    data are sufficient: the three tables of the findings are empty and the
    genotyper is called with an empty list of candidate sizes. *)
Theorem analyze_no_evidence (stats : LocusStats) (machine : Machine) :
  let this := analyzer machine in
  ¬ insufficientData stats this →
  countsOfSpanningReads_ this = ∅ →
  countsOfFlankingReads_ this = ∅ →
  countsOfInrepeatReads_ this = ∅ →
  let findings := result (analyze stats) machine in
  findings_spanningTable findings = ∅
  ∧ findings_flankingTable findings = ∅
  ∧ findings_inrepeatTable findings = ∅
  ∧ ∃ repeatGenotyper,
      findings_repeatGenotype findings = genotypeRepeat repeatGenotyper [].
Proof.
  intros this Hsufficient Hspanning Hflanking Hinrepeat findings. subst findings.
  unfold analyze. run_method. cbn [analyzer fst]. fold this.
  rewrite (insufficientData_false _ _ Hsufficient).
  rewrite Hspanning, Hflanking, Hinrepeat.
  unfold collapseTopElements. rewrite map_fold_empty.
  destruct (_ || _);
    cbn [fst findings_spanningTable findings_flankingTable
         findings_inrepeatTable findings_repeatGenotype];
    repeat (split; [done|]); eexists; reflexivity.
Qed.

End LittleEvidence.

Lemma generateCandidateAlleleSizes_no_spanning_witness :
  (∀ size, ¬ supported (∅ : gmap Z Z) size)
  ∧ is_longest {[4 := 1]} 4 ∧ is_longest {[6 := 1]} 6
  ∧ generateCandidateAlleleSizes ∅ {[4 := 1]} {[6 := 1]} = [6].
Proof.
  assert (Hnone : ∀ size, ¬ supported (∅ : gmap Z Z) size).
  { intros size Hsize. apply Hsize. apply countOf_empty. }
  assert (Hf : is_longest {[4 := 1]} 4)
    by exact (longestOf_is_longest {[4 := 1]}).
  assert (Hi : is_longest {[6 := 1]} 6)
    by exact (longestOf_is_longest {[6 := 1]}).
  split; [exact Hnone|]. split; [exact Hf|]. split; [exact Hi|].
  exact (generateCandidateAlleleSizes_no_spanning ∅ {[4 := 1]} {[6 := 1]} 4 6
           Hnone Hf Hi).
Defined.

Lemma analyze_no_evidence_witness :
  let findings := @result _ (@analyze sampleCollaborators diploidStats) sampleMachine in
  ¬ @insufficientData diploidStats (analyzer sampleMachine)
  ∧ findings_spanningTable findings = ∅
  ∧ findings_repeatGenotype findings = Some [].
Proof.
  intros findings.
  assert (Hsufficient : ¬ @insufficientData diploidStats (analyzer sampleMachine))
    by (apply diploidStats_sufficient; reflexivity).
  split; [exact Hsufficient|].
  destruct (@analyze_no_evidence sampleCollaborators diploidStats sampleMachine
              Hsufficient eq_refl eq_refl eq_refl)
    as (Hspanning & _ & _ & repeatGenotyper & Hgenotype).
  split; [exact Hspanning|]. unfold findings. rewrite Hgenotype. reflexivity.
Defined.
